(** * pystages: a shallow embedding of the stage drivers and their checks

    The Python sources embedded here are [pystages/vector.py],
    [pystages/stage.py], [pystages/cncrouter.py], [pystages/smc100.py],
    [pystages/m3fs.py], [pystages/corvus.py], [pystages/pi.py] and
    [pystages/tic.py].  Python numbers are [int] (unbounded, [Z]) or [float]
    (IEEE binary64, modelled with the Standard Library's [spec_float] at
    precision 53 and maximal exponent 1024, rounding to nearest even). *)

From Stdlib Require Import String Ascii ZArith List Bool Lia.
From Stdlib Require Import Floats.SpecFloat.
Import ListNotations.
Open Scope Z_scope.

(** ** Python values and exceptions *)

(** A Python object stored in a [Vector]: [None], an [int] or a [float]. *)
Inductive pyval : Type :=
| PyNone
| PyInt (z : Z)
| PyFloat (f : spec_float).

(** The status strings of a GRBL controller ([CNCStatus] in cncrouter.py). *)
Inductive CNCStatus : Type :=
| IDLE | RUN | HOLD | DOOR | HOME | ALARM | CHECK.

(** The messages of the exceptions raised by the code, one constructor per
    raise site (the formatted numbers of the f-strings are kept as data). *)
Inductive msg : Type :=
| MsgIncorrectDimension (got expected : nat)   (* check_dimension *)
| MsgInvalidBoundsDimension                    (* check_range, bounds length *)
| MsgSmallerThanMinimum (i : nat)              (* check_range, minimum *)
| MsgGreaterThanMaximum (i : nat)              (* check_range, maximum *)
| MsgIncorrectVectorSize                       (* Vector.__add__/__sub__/__mul__ *)
| MsgTooManyInitialValues                      (* Vector.__init__ *)
| MsgIncorrectOperandType                      (* Vector.__truediv__ *)
| MsgUnsupportedOperand                        (* a Python operator on None *)
| MsgInvalidLiteral                            (* int(...) or float(...) parse *)
| MsgNotAnEnumValue.                           (* Enum(value) lookup *)

Inductive exn : Type :=
| ValueError (m : msg)
| TypeError (m : msg)
| ZeroDivisionError
| OverflowError
| AssertionError
| KeyError
| ProtocolError (query response : option string)
| CNCError (message : string) (cncstatus : CNCStatus).

(** Result of a computation that may raise. *)
Inductive res (A : Type) : Type :=
| Ok (a : A)
| Err (e : exn).
Arguments Ok {A} a.
Arguments Err {A} e.

Definition res_bind {A B} (r : res A) (f : A -> res B) : res B :=
  match r with Ok a => f a | Err e => Err e end.

Notation "'let!' x := r 'in' body" := (res_bind r (fun x => body))
  (at level 200, x name, r at level 100, body at level 200).

(** ** Binary64 arithmetic *)
Module F64.
Definition prec : Z := 53.
Definition emax : Z := 1024.
Definition add := SFadd prec emax.
Definition sub := SFsub prec emax.
Definition mul := SFmul prec emax.
Definition div := SFdiv prec emax.
Definition eqb := SFeqb.
(** The correctly rounded float of an integer ([float(z)]). *)
Definition of_Z (z : Z) : spec_float := binary_normalize prec emax z 0 false.
Definition one : spec_float := of_Z 1.
Definition is_zero (f : spec_float) : bool :=
  match f with S754_zero _ => true | _ => false end.
(** The correctly rounded float of [m / 10^k] (m >= 0), as [float()] of a
    decimal literal computes it. *)
Definition of_decimal (neg : bool) (m : Z) (k : Z) : spec_float :=
  if m =? 0 then S754_zero neg
  else if 0 <=? k then
    let '(mz, ez, lz) := SFdiv_core_binary prec emax m 0 (10 ^ k) 0 in
    binary_round_aux prec emax neg mz ez lz
  else binary_normalize prec emax (if neg then - (m * 10 ^ (- k)) else m * 10 ^ (- k)) 0 neg.
End F64.

(** ** Python arithmetic on numbers *)
Module Py.
(** [float(z)] for an [int] [z]: correctly rounded, [OverflowError] when
    the integer is too large for a float. *)
Definition int_to_float (z : Z) : res spec_float :=
  match F64.of_Z z with
  | S754_infinity _ => Err OverflowError
  | f => Ok f
  end.

(** Exact comparison of an [int] with a [float], as Python does it;
    [None] when the float is a NaN. *)
Definition cmp_int_float (z : Z) (f : spec_float) : option comparison :=
  match f with
  | S754_nan => None
  | S754_infinity s => Some (if s then Gt else Lt)
  | S754_zero _ => Some (Z.compare z 0)
  | S754_finite s m e =>
      let v := cond_Zopp s (Zpos m) in
      if 0 <=? e then Some (Z.compare z (Z.shiftl v e))
      else Some (Z.compare (Z.shiftl z (- e)) v)
  end.

Definition cmp (a b : pyval) : res (option comparison) :=
  match a, b with
  | PyInt x, PyInt y => Ok (Some (Z.compare x y))
  | PyFloat x, PyFloat y => Ok (SFcompare x y)
  | PyInt x, PyFloat y => Ok (cmp_int_float x y)
  | PyFloat x, PyInt y => Ok (option_map CompOpp (cmp_int_float y x))
  | _, _ => Err (TypeError MsgUnsupportedOperand)
  end.

(** [a < b] and [a > b]. *)
Definition lt (a b : pyval) : res bool :=
  let! c := cmp a b in Ok (match c with Some Lt => true | _ => false end).
Definition gt (a b : pyval) : res bool :=
  let! c := cmp a b in Ok (match c with Some Gt => true | _ => false end).

(** [a == b]: never raises; [None] is only equal to [None]. *)
Definition eq (a b : pyval) : bool :=
  match a, b with
  | PyNone, PyNone => true
  | PyNone, _ | _, PyNone => false
  | _, _ => match cmp a b with Ok (Some Eq) => true | _ => false end
  end.

(** A binary operator: [int op int] is exact, otherwise the [int] operand is
    converted to [float] and the float operation is used. *)
Definition arith (zop : Z -> Z -> Z) (fop : spec_float -> spec_float -> spec_float)
    (a b : pyval) : res pyval :=
  match a, b with
  | PyInt x, PyInt y => Ok (PyInt (zop x y))
  | PyFloat x, PyFloat y => Ok (PyFloat (fop x y))
  | PyInt x, PyFloat y => let! x' := int_to_float x in Ok (PyFloat (fop x' y))
  | PyFloat x, PyInt y => let! y' := int_to_float y in Ok (PyFloat (fop x y'))
  | _, _ => Err (TypeError MsgUnsupportedOperand)
  end.

Definition add := arith Z.add F64.add.
Definition sub := arith Z.sub F64.sub.
Definition mul := arith Z.mul F64.mul.

(** [x / other] with a float [x] (the [1.0 / other] of
    [Vector.__truediv__]): [ZeroDivisionError] on a zero divisor. *)
Definition float_truediv (x : spec_float) (other : pyval) : res pyval :=
  match other with
  | PyFloat y => if F64.is_zero y then Err ZeroDivisionError else Ok (PyFloat (F64.div x y))
  | PyInt y =>
      if y =? 0 then Err ZeroDivisionError
      else let! y' := int_to_float y in Ok (PyFloat (F64.div x y'))
  | PyNone => Err (TypeError MsgUnsupportedOperand)
  end.

(** [isinstance(x, (int, float))]. *)
Definition is_number (x : pyval) : bool :=
  match x with PyNone => false | _ => true end.
End Py.

(** ** vector.py: [Vector] *)
Module Vector.
(** A [Vector] is its [data] list. *)
Definition vec := list pyval.

(** [Vector(args, dim=dim)] with positional [args]: pads with [0] up to [dim]. *)
Definition make (args : list pyval) (dim : option nat) : res vec :=
  match dim with
  | None => Ok args
  | Some d =>
      if Nat.ltb d (length args) then Err (ValueError MsgTooManyInitialValues)
      else Ok (args ++ repeat (PyInt 0) (d - length args))
  end.

(** [Vector(dim=n)], which cannot raise. *)
Definition zeros (n : nat) : vec := repeat (PyInt 0) n.

(** The loop [for i in range(dim): result.data[i] op= other[i]], left to
    right, stopping at the first exception. *)
Fixpoint map2 (op : pyval -> pyval -> res pyval) (xs ys : vec) : res vec :=
  match xs, ys with
  | x :: xs', y :: ys' =>
      let! z := op x y in
      let! zs := map2 op xs' ys' in Ok (z :: zs)
  | _, _ => Ok []
  end.

Fixpoint map1 (op : pyval -> res pyval) (xs : vec) : res vec :=
  match xs with
  | x :: xs' => let! z := op x in let! zs := map1 op xs' in Ok (z :: zs)
  | [] => Ok []
  end.

(** [__add__] and [__sub__]. *)
Definition add (self other : vec) : res vec :=
  if negb (Nat.eqb (length other) (length self))
  then Err (ValueError MsgIncorrectVectorSize)
  else map2 Py.add self other.

Definition sub (self other : vec) : res vec :=
  if negb (Nat.eqb (length other) (length self))
  then Err (ValueError MsgIncorrectVectorSize)
  else map2 Py.sub self other.

(** The right operand of [*] and [/]: a number or another [Vector]. *)
Inductive operand : Type :=
| Scalar (x : pyval)
| Vec (v : vec).

(** [__mul__]: by a scalar, or element-wise by a vector of equal length. *)
Definition mul (self : vec) (other : operand) : res vec :=
  match other with
  | Scalar x =>
      if Py.is_number x then map1 (fun a => Py.mul a x) self
      else Err (TypeError MsgUnsupportedOperand)
  | Vec o =>
      if negb (Nat.eqb (length o) (length self))
      then Err (ValueError MsgIncorrectVectorSize)
      else map2 Py.mul self o
  end.

(** [__truediv__]: only a number is accepted, [self * (1.0 / other)]. *)
Definition truediv (self : vec) (other : operand) : res vec :=
  match other with
  | Scalar x =>
      if Py.is_number x then
        let! r := Py.float_truediv F64.one x in mul self (Scalar r)
      else Err (TypeError MsgIncorrectOperandType)
  | Vec _ => Err (TypeError MsgIncorrectOperandType)
  end.

(** [__eq__]: equal lengths and element-wise [!=] never true. *)
Fixpoint all_eq (xs ys : vec) : bool :=
  match xs, ys with
  | x :: xs', y :: ys' => Py.eq x y && all_eq xs' ys'
  | _, _ => true
  end.

Definition eqb (self other : vec) : bool :=
  Nat.eqb (length self) (length other) && all_eq self other.

Definition all_ints (v : vec) : Prop :=
  Forall (fun x => exists z, x = PyInt z) v.

(** The position [self.data[key]] designates for an [int] key: a negative
    key counts from the end; [None] when the key is out of range (the
    [IndexError] of a Python list). *)
Definition index (v : vec) (key : Z) : option nat :=
  let n := Z.of_nat (length v) in
  let k := if key <? 0 then key + n else key in
  if (0 <=? k) && (k <? n) then Some (Z.to_nat k) else None.

(** [__getitem__] with an [int] key; [None] is the [IndexError]. *)
Definition getitem (v : vec) (key : Z) : option pyval :=
  match index v key with Some i => nth_error v i | None => None end.

(** [__setitem__] with an [int] key: the new [data]; [None] is the
    [IndexError], raised before anything is changed. *)
Definition setitem (v : vec) (key : Z) (value : pyval) : option vec :=
  match index v key with
  | Some i => Some (firstn i v ++ value :: skipn (S i) v)
  | None => None
  end.

(** The [x], [y], [z] and [w] getters. *)
Definition x (v : vec) : option pyval := getitem v 0.
Definition y (v : vec) : option pyval := getitem v 1.
Definition z (v : vec) : option pyval := getitem v 2.
Definition w (v : vec) : option pyval := getitem v 3.

(** The [xy] getter: [Vector(self.data[0], self.data[1])]. *)
Definition xy (v : vec) : option vec :=
  match getitem v 0, getitem v 1 with
  | Some a, Some b => Some [a; b]
  | _, _ => None
  end.

(** The [xy] setter: [self.data[0] = value.data[0]], then
    [self.data[1] = value.data[1]].  The result is [self.data] after the
    call and whether an [IndexError] was raised: when the second statement
    raises, the first assignment stays done. *)
Definition xy_set (self value : vec) : vec * bool :=
  match getitem value 0 with
  | None => (self, true)
  | Some a =>
      match setitem self 0 a with
      | None => (self, true)
      | Some s1 =>
          match getitem value 1 with
          | None => (s1, true)
          | Some b =>
              match setitem s1 1 b with
              | None => (s1, true)
              | Some s2 => (s2, false)
              end
          end
      end
  end.
End Vector.

(** ** The transport: a serial line seen by a driver *)
Module IO.
(** What is still to be received ([rx], tokens of type [I]: lines or
    bytes, depending on the driver) and what has been written ([tx]). *)
Record chan (I : Type) : Type := mkchan { rx : list I; tx : list string }.
Arguments mkchan {I} rx tx.
Arguments rx {I} c.
Arguments tx {I} c.

(** A call returns, raises, or does not return (a blocking read with
    nothing to read, or a polling loop that never ends). *)
Inductive outcome (A : Type) : Type :=
| Ret (a : A)
| Raise (e : exn)
| Hang.
Arguments Ret {A} a.
Arguments Raise {A} e.
Arguments Hang {A}.

Definition M (I A : Type) : Type := chan I -> outcome A * chan I.

Definition ret {I A} (a : A) : M I A := fun c => (Ret a, c).
Definition raise {I A} (e : exn) : M I A := fun c => (Raise e, c).
Definition hang {I A} : M I A := fun c => (Hang, c).
Definition bind {I A B} (m : M I A) (f : A -> M I B) : M I B :=
  fun c => match m c with
           | (Ret a, c') => f a c'
           | (Raise e, c') => (Raise e, c')
           | (Hang, c') => (Hang, c')
           end.
Definition lift {I A} (r : res A) : M I A :=
  match r with Ok a => ret a | Err e => raise e end.

(** [serial.write(s)]. *)
Definition write {I} (s : string) : M I unit :=
  fun c => (Ret tt, mkchan (rx c) (tx c ++ [s])).

(** A loop that consumes a token per iteration while there is one, run
    with one iteration more than there are tokens: when the fuel runs out
    nothing is left to read and the loop would repeat itself forever. *)
Definition with_fuel {I A} (body : nat -> M I A) : M I A :=
  fun c => body (S (List.length (rx c))) c.

(** [try: m except ProtocolError: h]. *)
Definition catch_protocol {I A} (m : M I A) (h : M I A) : M I A :=
  fun c => match m c with
           | (Raise (ProtocolError _ _), c') => h c'
           | r => r
           end.

(** One read: the next token, or [None] when nothing more arrives. *)
Definition read {I} : M I (option I) :=
  fun c => match rx c with
           | [] => (Ret None, c)
           | t :: r => (Ret (Some t), mkchan r (tx c))
           end.
End IO.

Notation "x <- m ;; k" := (IO.bind m (fun x => k))
  (at level 61, m at next level, right associativity).
Notation "m ;;; k" := (IO.bind m (fun _ => k))
  (at level 61, right associativity).

(** ** stage.py: the [Stage] base class *)
Module Stage.
Import Vector.

(** The attributes of [Stage] used by the checks. *)
Record stage : Type := mkstage {
  num_axis : nat;
  minimums : option vec;
  maximums : option vec
}.

(** [check_dimension]. *)
Definition check_dimension (st : stage) (value : vec) : res unit :=
  if negb (Nat.eqb (num_axis st) (length value))
  then Err (ValueError (MsgIncorrectDimension (length value) (num_axis st)))
  else Ok tt.

(** The loop [for i in range(len(value))] of [check_range]; [i] is the
    index of the head of the lists. *)
Fixpoint range_loop (i : nat) (vs mins maxs : vec) : res unit :=
  match vs, mins, maxs with
  | x :: vs', m :: mins', mx :: maxs' =>
      let! small :=
        match m with PyNone => Ok false | _ => Py.lt x m end in
      if small then Err (ValueError (MsgSmallerThanMinimum i)) else
      let! great :=
        match mx with PyNone => Ok false | _ => Py.gt x mx end in
      if great then Err (ValueError (MsgGreaterThanMaximum i)) else
      range_loop (S i) vs' mins' maxs'
  | _, _, _ => Ok tt
  end.

(** [check_range]. *)
Definition check_range (st : stage) (value : vec) : res unit :=
  match minimums st, maximums st with
  | None, None => Ok tt
  | omins, omaxs =>
      let mins := match omins with Some m => m | None => value end in
      let maxs := match omaxs with Some m => m | None => value end in
      if negb (Nat.eqb (length mins) (length value))
         || negb (Nat.eqb (length maxs) (length value))
      then Err (ValueError MsgInvalidBoundsDimension)
      else range_loop 0 value mins maxs
  end.

Section Driver.
(** A concrete driver: the tokens its transport receives, what its
    position setter does after [Stage.position.fset] has returned (every
    driver's setter starts with that call), its [is_moving] query and
    the optional [wait_routine]. *)
Variable I : Type.
Variable drv_move : vec -> IO.M I unit.
Variable is_moving : IO.M I bool.
Variable wait_routine : option (IO.M I unit).

(** A driver's [position] setter. *)
Definition position_set (st : stage) (value : vec) : IO.M I unit :=
  IO.lift (check_dimension st value) ;;;
  IO.lift (check_range st value) ;;;
  drv_move value.

(** [wait_move_finished]: [fuel] bounds the number of polls; running
    out of it stands for a loop that does not end. *)
Fixpoint wait_move_finished (fuel : nat) : IO.M I unit :=
  match fuel with
  | O => IO.hang
  | S f =>
      b <- is_moving ;;
      if b then
        match wait_routine with
        | Some r => r ;;; wait_move_finished f
        | None => wait_move_finished f
        end
      else IO.ret tt
  end.

(** [move_to]. *)
Definition move_to (fuel : nat) (st : stage) (value : vec) (wait : bool)
  : IO.M I unit :=
  position_set st value ;;;
  if wait then wait_move_finished fuel else IO.ret tt.

(** [Stage.home], used by the drivers that do not override it. *)
Definition home (fuel : nat) (st : stage) (wait : bool) : IO.M I unit :=
  move_to fuel st (zeros (num_axis st)) wait.
End Driver.

(** The bounds have the length [num_axis] (what the [minimums] and
    [maximums] setters check). *)
Definition bounds_fit (st : stage) : Prop :=
  (forall m, minimums st = Some m -> length m = num_axis st) /\
  (forall m, maximums st = Some m -> length m = num_axis st).

(** Component [i] of [value] is below a set minimum or above a set maximum,
    with Python's [<] and [>]. *)
Definition violates (st : stage) (value : vec) (i : nat) : Prop :=
  exists x, nth_error value i = Some x /\
  ((exists ms m, minimums st = Some ms /\ nth_error ms i = Some m /\
                 m <> PyNone /\ Py.lt x m = Ok true) \/
   (exists ms m, maximums st = Some ms /\ nth_error ms i = Some m /\
                 m <> PyNone /\ Py.gt x m = Ok true)).

Definition range_error (e : exn) : Prop :=
  exists i, e = ValueError (MsgSmallerThanMinimum i) \/
            e = ValueError (MsgGreaterThanMaximum i).

(** The [minimums] and [maximums] setters: a vector is checked with
    [check_dimension] before it is stored; [None] removes the bound. *)
Definition set_minimums (st : stage) (value : option vec) : res stage :=
  match value with
  | Some v => let! _ := check_dimension st v in
              Ok (mkstage (num_axis st) (Some v) (maximums st))
  | None => Ok (mkstage (num_axis st) None (maximums st))
  end.

Definition set_maximums (st : stage) (value : option vec) : res stage :=
  match value with
  | Some v => let! _ := check_dimension st v in
              Ok (mkstage (num_axis st) (minimums st) (Some v))
  | None => Ok (mkstage (num_axis st) (minimums st) None)
  end.

(** A serial port listed by [comports()]: its [device] path, its USB
    [pid] and [vid] and its [serial_number] ([None] when the port has
    none, as for a port that is not a USB one). *)
Record port : Type := mkport {
  port_device : string;
  port_pid : option Z;
  port_vid : option Z;
  port_serial_number : option string
}.

(** The outcome of [find_device]: the path of the device, or one of its two
    [RuntimeError]s ("Multiple devices found! ..." and "No device found"). *)
Inductive found : Type :=
| Found (dev : string)
| MultipleDevicesFound
| NoDeviceFound.

Definition opt_eqb {A} (eqb : A -> A -> bool) (a b : option A) : bool :=
  match a, b with
  | Some x, Some y => eqb x y
  | None, None => true
  | _, _ => false
  end.

(** The test of the loop of [find_device]: with a [serial_number], the
    port's serial number must equal it; otherwise [(port.pid, port.vid)]
    must equal [(pid, vid)]. *)
Definition port_selected (pid vid : option Z) (serial_number : option string)
    (p : port) : bool :=
  match serial_number with
  | Some sn => opt_eqb String.eqb (port_serial_number p) (Some sn)
  | None => opt_eqb Z.eqb (port_pid p) pid && opt_eqb Z.eqb (port_vid p) vid
  end.

(** [find_device] over the list [comports()] returns. *)
Definition find_device (ports : list port) (pid vid : option Z)
    (serial_number : option string) : found :=
  match filter (port_selected pid vid serial_number) ports with
  | [p] => Found (port_device p)
  | [] => NoDeviceFound
  | _ => MultipleDevicesFound
  end.
End Stage.

(** ** Python string operations *)
Module Str.
Definition startswith (s p : string) : bool := String.prefix p s.

Definition endswith (s p : string) : bool :=
  let n := String.length s in
  let k := String.length p in
  Nat.leb k n && String.eqb (substring (n - k) k s) p.

(** [s[1:-1]]. *)
Definition strip_ends (s : string) : string :=
  substring 1 (String.length s - 2) s.

Fixpoint contains (c : ascii) (s : string) : bool :=
  match s with
  | EmptyString => false
  | String a s' => Ascii.eqb a c || contains c s'
  end.

(** [s.split(c)] for a one-character separator. *)
Fixpoint split (c : ascii) (s : string) : list string :=
  match s with
  | EmptyString => [EmptyString]
  | String a s' =>
      let rest := split c s' in
      if Ascii.eqb a c then EmptyString :: rest
      else match rest with
           | r :: rs => String a r :: rs
           | [] => [String a EmptyString]
           end
  end.

(** [s.split(c, 1)]: [None] when [c] does not occur (a one-element list). *)
Fixpoint split1 (c : ascii) (s : string) : option (string * string) :=
  match s with
  | EmptyString => None
  | String a s' =>
      if Ascii.eqb a c then Some (EmptyString, s')
      else match split1 c s' with
           | Some (k, v) => Some (String a k, v)
           | None => None
           end
  end.

(** The one-character strings of [s] ([for x in s]). *)
Fixpoint chars (s : string) : list string :=
  match s with
  | EmptyString => []
  | String a s' => String a EmptyString :: chars s'
  end.

(** The ASCII characters that [str.strip], [int] and [float] skip. *)
Definition is_space (c : ascii) : bool :=
  let n := nat_of_ascii c in
  Nat.eqb n 32 || (Nat.leb 9 n && Nat.leb n 13) || (Nat.leb 28 n && Nat.leb n 31).

(** The whitespace that [bytes.fromhex] skips. *)
Definition is_byte_space (c : ascii) : bool :=
  let n := nat_of_ascii c in
  Nat.eqb n 32 || (Nat.leb 9 n && Nat.leb n 13).

Fixpoint lstrip (l : list ascii) : list ascii :=
  match l with
  | c :: l' => if is_space c then lstrip l' else l
  | [] => []
  end.

(** [s.strip()] on ASCII whitespace. *)
Definition strip (l : list ascii) : list ascii := rev (lstrip (rev (lstrip l))).

Definition lower (c : ascii) : ascii :=
  let n := nat_of_ascii c in
  if Nat.leb 65 n && Nat.leb n 90 then ascii_of_nat (n + 32) else c.

Definition digit (c : ascii) : option Z :=
  let n := nat_of_ascii c in
  if Nat.leb 48 n && Nat.leb n 57 then Some (Z.of_nat (n - 48)) else None.

(** The longest prefix of digits in base [b], read with [dig]. *)
Fixpoint take_digits (dig : ascii -> option Z) (l : list ascii)
  : list Z * list ascii :=
  match l with
  | c :: l' =>
      match dig c with
      | Some d => let '(ds, r) := take_digits dig l' in (d :: ds, r)
      | None => ([], l)
      end
  | [] => ([], [])
  end.

Definition value_of (b : Z) (ds : list Z) : Z :=
  fold_left (fun acc d => acc * b + d) ds 0.

Definition sign (l : list ascii) : bool * list ascii :=
  match l with
  | "-"%char :: l' => (true, l')
  | "+"%char :: l' => (false, l')
  | _ => (false, l)
  end.

(** [str(z)] for an [int]. *)
Fixpoint digits_of_pos (fuel : nat) (p : positive) (acc : string) : string :=
  match fuel with
  | O => acc
  | S f =>
      let '(q, r) := Z.div_eucl (Zpos p) 10 in
      let acc' := String (ascii_of_nat (48 + Z.to_nat r)) acc in
      match q with
      | Zpos q' => digits_of_pos f q' acc'
      | _ => acc'
      end
  end.

Definition of_Z (z : Z) : string :=
  match z with
  | Z0 => "0"
  | Zpos p => digits_of_pos (Pos.size_nat p) p EmptyString
  | Zneg p => String "-" (digits_of_pos (Pos.size_nat p) p EmptyString)
  end.
(** [b.strip()] on [bytes]: only ASCII whitespace is removed. *)
Fixpoint lstrip_bytes (l : list ascii) : list ascii :=
  match l with
  | c :: l' => if is_byte_space c then lstrip_bytes l' else l
  | [] => []
  end.

Definition strip_bytes (l : list ascii) : list ascii :=
  rev (lstrip_bytes (rev (lstrip_bytes l))).

(** [sep.join(l)]. *)
Fixpoint join (sep : string) (l : list string) : string :=
  match l with
  | [] => EmptyString
  | [x] => x
  | x :: l' => x ++ sep ++ join sep l'
  end.
End Str.

(** [float(s)] for a string: surrounding whitespace, a sign, the spellings
    [inf], [infinity] and [nan] in any case, and decimal literals with an
    optional fraction and exponent.  Underscores between digits, also
    accepted by Python, are not modelled (they raise here). *)
Definition py_float (s : string) : res spec_float :=
  let l := Str.strip (list_ascii_of_string s) in
  let '(neg, l1) := Str.sign l in
  let word := string_of_list_ascii (map Str.lower l1) in
  if String.eqb word "inf" || String.eqb word "infinity" then Ok (S754_infinity neg)
  else if String.eqb word "nan" then Ok S754_nan
  else
    let '(ip, l2) := Str.take_digits Str.digit l1 in
    let '(fp, l3) :=
      match l2 with
      | "."%char :: r => Str.take_digits Str.digit r
      | _ => ([], l2)
      end in
    let dot_ok := match l2 with "."%char :: _ => true | [] => true | "e"%char :: _ => true | "E"%char :: _ => true | _ => false end in
    if (match ip, fp with [], [] => true | _, _ => false end) || negb dot_ok
    then Err (ValueError MsgInvalidLiteral)
    else
      let exp :=
        match l3 with
        | [] => Some 0
        | c :: r =>
            if Ascii.eqb c "e" || Ascii.eqb c "E" then
              let '(eneg, r1) := Str.sign r in
              match Str.take_digits Str.digit r1 with
              | ((_ :: _) as ds, []) =>
                  let e := Str.value_of 10 ds in Some (if eneg then - e else e)
              | _ => None
              end
            else None
        end in
      match exp with
      | None => Err (ValueError MsgInvalidLiteral)
      | Some e =>
          Ok (F64.of_decimal neg (Str.value_of 10 (ip ++ fp))
                (Z.of_nat (List.length fp) - e))
      end.

(** ** cncrouter.py: [CNCRouter] (GRBL) *)
Module CNC.
Local Open Scope string_scope.
(** Each token received is one line, CR-LF removed, as [receive] returns
    it; no token left means [receive]'s ten empty reads, returning an empty string. *)
Definition I := string.

(** [CNCStatus(s)]. *)
Definition status_of_string (s : string) : res CNCStatus :=
  if String.eqb s "Idle" then Ok IDLE
  else if String.eqb s "Run" then Ok RUN
  else if String.eqb s "Hold" then Ok HOLD
  else if String.eqb s "Door" then Ok DOOR
  else if String.eqb s "Home" then Ok HOME
  else if String.eqb s "Alarm" then Ok ALARM
  else if String.eqb s "Check" then Ok CHECK
  else Err (ValueError MsgNotAnEnumValue).

(** A value of the [others] dict: [None], a string, or a list of strings. *)
Inductive dval : Type :=
| DNone
| DStr (s : string)
| DList (l : list string).

(** A Python dict, in insertion order. *)
Definition dict := list (string * dval).

(** [d[k] = v]: an existing key keeps its place. *)
Fixpoint dict_set (k : string) (v : dval) (d : dict) : dict :=
  match d with
  | [] => [(k, v)]
  | (k', v') :: d' =>
      if String.eqb k k' then (k, v) :: d' else (k', v') :: dict_set k v d'
  end.

Fixpoint dict_get (k : string) (d : dict) : option dval :=
  match d with
  | [] => None
  | (k', v) :: d' => if String.eqb k k' then Some v else dict_get k d'
  end.

Definition has_key (k : string) (d : dict) : bool :=
  match dict_get k d with Some _ => true | None => false end.

(** One [key_value] of the loop of [get_current_status]. *)
Definition key_value (element : string) : string * dval :=
  match Str.split1 ":" element with
  | None => (element, DNone)
  | Some (key, value) =>
      (key, if Str.contains "," value then DList (Str.split "," value)
            else DStr value)
  end.

(** The parse of a [<...>] report. *)
Definition parse_report (status : string) : res (CNCStatus * dict) :=
  let elements := Str.split "|" (Str.strip_ends status) in
  let! cncstatus := status_of_string (hd EmptyString elements) in
  Ok (cncstatus,
      fold_left (fun others el =>
                   let '(key, value) := key_value el in dict_set key value others)
                (tl elements) []).

(** [send]: [eol] defaults to LF. *)
Definition send (command : string) (eol : option string) : IO.M I unit :=
  IO.write (command ++ match eol with Some e => e | None => String "010" EmptyString end).

Definition receive : IO.M I string :=
  r <- IO.read ;;
  IO.ret (match r with Some l => l | None => EmptyString end).

(** [while status == "ok": status = self.receive()]. *)
Fixpoint skip_ok (fuel : nat) (status : string) : IO.M I string :=
  match fuel with
  | O => IO.hang
  | S f =>
      if String.eqb status "ok" then s <- receive ;; skip_ok f s
      else IO.ret status
  end.

(** [get_current_status] ([status is None] cannot hold: [receive]
    returns a string). *)
Definition get_current_status : IO.M I (option (CNCStatus * dict)) :=
  send "?" (Some EmptyString) ;;;
  status <- receive ;;
  status <- (if String.eqb status EmptyString
             then send "?" (Some EmptyString) ;;; receive
             else IO.ret status) ;;
  status <- IO.with_fuel (fun fuel => skip_ok fuel status) ;;
  if Str.startswith status "ALARM:1" then
    next <- receive ;;
    IO.raise (CNCError next ALARM)
  else if negb (Str.startswith status "<" && Str.endswith status ">") then
    IO.ret None
  else
    r <- IO.lift (parse_report status) ;;
    IO.ret (Some r).

(** [float(x)] for each [x], left to right. *)
Fixpoint floats (l : list string) : res Vector.vec :=
  match l with
  | [] => Ok []
  | x :: l' => let! f := py_float x in let! r := floats l' in Ok (PyFloat f :: r)
  end.

(** [Vector( *tuple(float(x) for x in extra_dict[key]))]: a missing key is
    a [KeyError], [None] is not iterable, a string iterates on its
    characters. *)
Definition floats_of (v : option dval) : res Vector.vec :=
  match v with
  | None => Err KeyError
  | Some DNone => Err (TypeError MsgUnsupportedOperand)
  | Some (DStr s) => floats (Str.chars s)
  | Some (DList l) => floats l
  end.

(** The [while "WCO" not in extra_dict.keys()] loop of the [position]
    getter. *)
Fixpoint poll_wco (fuel : nat) : IO.M I dict :=
  match fuel with
  | O => IO.hang
  | S f =>
      current_status <- get_current_status ;;
      let extra_dict :=
        match current_status with Some (_, d) => d | None => [] end in
      if has_key "WCO" extra_dict then IO.ret extra_dict else poll_wco f
  end.

(** The [position] getter: Machine Position minus Work Coordinate Offset. *)
Definition position : IO.M I Vector.vec :=
  extra_dict <- IO.with_fuel poll_wco ;;
  IO.lift (let! mpos := floats_of (dict_get "MPos" extra_dict) in
           let! wco := floats_of (dict_get "WCO" extra_dict) in
           Vector.sub mpos wco).

(** [while (status := self.get_current_status()) is None: pass]. *)
Fixpoint poll_status (fuel : nat) : IO.M I (CNCStatus * dict) :=
  match fuel with
  | O => IO.hang
  | S f =>
      status <- get_current_status ;;
      match status with Some s => IO.ret s | None => poll_status f end
  end.

(** [is_moving]: the reported status is [Run] or [Home]. *)
Definition is_moving : IO.M I bool :=
  status <- IO.with_fuel poll_status ;;
  IO.ret (match fst status with RUN | HOME => true | _ => false end).

(** [line.strip().decode()] for a line read by [serial.readline()]. *)
Definition strip_line (l : string) : string :=
  string_of_list_ascii (Str.strip_bytes (list_ascii_of_string l)).

(** The loop of [receive_lines]: each [serial.readline()] (a line, or an
    empty [bytes] when the read times out) is stripped and decoded; the
    non-empty lines before [until] are collected. *)
Fixpoint receive_lines_loop (fuel : nat) (until : string) (lines : list string)
  : IO.M I (list string) :=
  match fuel with
  | O => IO.hang
  | S f =>
      r <- IO.read ;;
      let line := match r with
                  | Some l => strip_line l
                  | None => EmptyString
                  end in
      if String.eqb line until then IO.ret lines
      else receive_lines_loop f until
             (if Nat.eqb (String.length line) 0 then lines else lines ++ [line])
  end.

Definition receive_lines (until : string) : IO.M I (list string) :=
  IO.with_fuel (fun fuel => receive_lines_loop fuel until []).

(** [unlock]. *)
Definition unlock : IO.M I bool :=
  send "$X" None ;;;
  lines <- receive_lines "ok" ;;
  IO.ret (existsb (String.eqb "[MSG:Caution: Unlocked]") lines).
End CNC.

(** [int(s, 16)]: surrounding whitespace, a sign, an optional [0x] prefix
    and hexadecimal digits in either case.  Underscores between digits, also
    accepted by Python, are not modelled (they raise here). *)
Definition hex_digit (c : ascii) : option Z :=
  let n := nat_of_ascii c in
  if Nat.leb 48 n && Nat.leb n 57 then Some (Z.of_nat (n - 48))
  else if Nat.leb 97 n && Nat.leb n 102 then Some (Z.of_nat (n - 87))
  else if Nat.leb 65 n && Nat.leb n 70 then Some (Z.of_nat (n - 55))
  else None.

Definition py_int16 (s : string) : res Z :=
  let l := Str.strip (list_ascii_of_string s) in
  let '(neg, l1) := Str.sign l in
  let l2 := match l1 with
            | "0"%char :: x :: r => if Ascii.eqb (Str.lower x) "x" then r else l1
            | _ => l1
            end in
  match Str.take_digits hex_digit l2 with
  | ((_ :: _) as ds, []) =>
      let v := Str.value_of 16 ds in Ok (if neg then - v else v)
  | _ => Err (ValueError MsgInvalidLiteral)
  end.

(** ** smc100.py: [Link], [State], [Error], [ErrorAndState], [SMC100] *)
Module SMC.
Local Open Scope string_scope.
(** Each token received is one line as [Link.receive] returns it (high
    bit masked, CR and NUL dropped, up to LF); the port has no timeout, so
    a read with no token left blocks. *)
Definition I := string.

Inductive State : Type :=
| NOT_REFERENCED_FROM_RESET | NOT_REFERENCED_FROM_HOMING
| NOT_REFERENCED_FROM_CONFIGURATION | NOT_REFERENCED_FROM_DISABLE
| NOT_REFERENCED_FROM_READY | NOT_REFERENCED_FROM_MOVING
| NOT_REFERENCED_STAGE_ERROR | NOT_REFERENCED_FROM_JOGGING
| CONFIGURATION | HOMING_RS232 | HOMING_SMCRC | MOVING
| READY_FROM_HOMING | READY_FROM_MOVING | READY_FROM_DISABLE
| READY_FROM_JOGGING | DISABLE_FROM_READY | DISABLE_FROM_MOVING
| DISABLE_FROM_JOGGING | JOGGING_FROM_READY | JOGGING_FROM_DISABLE.

Definition state_value (s : State) : Z :=
  match s with
  | NOT_REFERENCED_FROM_RESET => 0x0A
  | NOT_REFERENCED_FROM_HOMING => 0x0B
  | NOT_REFERENCED_FROM_CONFIGURATION => 0x0C
  | NOT_REFERENCED_FROM_DISABLE => 0x0D
  | NOT_REFERENCED_FROM_READY => 0x0E
  | NOT_REFERENCED_FROM_MOVING => 0x0F
  | NOT_REFERENCED_STAGE_ERROR => 0x10
  | NOT_REFERENCED_FROM_JOGGING => 0x11
  | CONFIGURATION => 0x14
  | HOMING_RS232 => 0x1E
  | HOMING_SMCRC => 0x1F
  | MOVING => 0x28
  | READY_FROM_HOMING => 0x32
  | READY_FROM_MOVING => 0x33
  | READY_FROM_DISABLE => 0x34
  | READY_FROM_JOGGING => 0x35
  | DISABLE_FROM_READY => 0x3C
  | DISABLE_FROM_MOVING => 0x3D
  | DISABLE_FROM_JOGGING => 0x3E
  | JOGGING_FROM_READY => 0x46
  | JOGGING_FROM_DISABLE => 0x47
  end.

Definition all_states : list State :=
  [NOT_REFERENCED_FROM_RESET; NOT_REFERENCED_FROM_HOMING;
   NOT_REFERENCED_FROM_CONFIGURATION; NOT_REFERENCED_FROM_DISABLE;
   NOT_REFERENCED_FROM_READY; NOT_REFERENCED_FROM_MOVING;
   NOT_REFERENCED_STAGE_ERROR; NOT_REFERENCED_FROM_JOGGING;
   CONFIGURATION; HOMING_RS232; HOMING_SMCRC; MOVING;
   READY_FROM_HOMING; READY_FROM_MOVING; READY_FROM_DISABLE;
   READY_FROM_JOGGING; DISABLE_FROM_READY; DISABLE_FROM_MOVING;
   DISABLE_FROM_JOGGING; JOGGING_FROM_READY; JOGGING_FROM_DISABLE].

(** [State(v)]: [ValueError] for a value that is no member's. *)
Definition state_of_Z (v : Z) : res State :=
  match find (fun s => Z.eqb (state_value s) v) all_states with
  | Some s => Ok s
  | None => Err (ValueError MsgNotAnEnumValue)
  end.

(** [Error(v)]: a flag combination of the ten bits 0..9. *)
Definition error_of_Z (v : Z) : res Z :=
  if Z.leb 0 v && Z.ltb v 1024 then Ok v else Err (ValueError MsgNotAnEnumValue).

Definition NO_ERROR : Z := 0.

Record ErrorAndState : Type := mkErrorAndState { error : Z; state : State }.

Definition in_range (s lo hi : State) : bool :=
  Z.leb (state_value lo) (state_value s) && Z.leb (state_value s) (state_value hi).

Definition is_referenced (es : ErrorAndState) : bool :=
  negb (in_range (state es) NOT_REFERENCED_FROM_RESET NOT_REFERENCED_FROM_JOGGING).
Definition is_ready (es : ErrorAndState) : bool :=
  in_range (state es) READY_FROM_HOMING READY_FROM_JOGGING.
Definition is_moving (es : ErrorAndState) : bool :=
  Z.eqb (state_value (state es)) (state_value MOVING).
Definition is_homing (es : ErrorAndState) : bool :=
  in_range (state es) HOMING_RS232 HOMING_SMCRC.
Definition is_jogging (es : ErrorAndState) : bool :=
  in_range (state es) JOGGING_FROM_READY JOGGING_FROM_DISABLE.
Definition is_disabled (es : ErrorAndState) : bool :=
  in_range (state es) DISABLE_FROM_READY DISABLE_FROM_JOGGING.

Definition addr_prefix (address : option Z) : string :=
  match address with None => EmptyString | Some a => Str.of_Z a end.

(** [Link.send]. *)
Definition send (address : option Z) (command : string) : IO.M I unit :=
  IO.write (addr_prefix address ++ command ++ String "013" (String "010" EmptyString)).

(** [Link.receive]: blocks while nothing arrives. *)
Definition receive : IO.M I string :=
  r <- IO.read ;;
  match r with Some l => IO.ret l | None => IO.hang end.

(** [Link.response]: the echoed [{address}{command}] header is checked
    and removed ([receive] never returns [None]). *)
Definition response (address : option Z) (command : string) : IO.M I string :=
  let query_string := (addr_prefix address ++ command)%string in
  res <- receive ;;
  if String.prefix query_string res
  then IO.ret (substring (String.length query_string)
                         (String.length res - String.length query_string) res)
  else IO.raise (ProtocolError (Some query_string) (Some res)).

(** [Link.query]: on a [ProtocolError] the query is sent again. *)
Fixpoint query_fuel (fuel : nat) (address : option Z) (command : string)
    (lazy_res : bool) : IO.M I (option string) :=
  match fuel with
  | O => IO.hang
  | S f =>
      send address (command ++ "?")%string ;;;
      if lazy_res then IO.ret None
      else IO.catch_protocol
             (r <- response address command ;; IO.ret (Some r))
             (query_fuel f address command lazy_res)
  end.

Definition query (address : option Z) (command : string) (lazy_res : bool)
  : IO.M I (option string) :=
  IO.with_fuel (fun fuel => query_fuel fuel address command lazy_res).

(** The decoding of a [TS] response in [get_error_and_state]. *)
Definition decode_error_and_state (r0 : option string) : res ErrorAndState :=
  match r0 with
  | Some r =>
      if Nat.eqb (String.length r) 6 then
        let! e := py_int16 (substring 0 4 r) in
        let! e := error_of_Z e in
        let! s := py_int16 (substring 4 (String.length r - 4) r) in
        let! s := state_of_Z s in
        Ok (mkErrorAndState e s)
      else Err (ProtocolError (Some "TS") r0)
  | None => Err (ProtocolError (Some "TS") r0)
  end.

(** [SMC100.get_error_and_state]. *)
Definition get_error_and_state (addr : Z) : IO.M I ErrorAndState :=
  res <- query (Some addr) "TS" false ;;
  IO.lift (decode_error_and_state res).

(** [SMC100.is_moving]. *)
Fixpoint stage_is_moving (addresses : list Z) : IO.M I bool :=
  match addresses with
  | [] => IO.ret false
  | addr :: rest =>
      state <- get_error_and_state addr ;;
      if is_moving state || is_homing state || is_jogging state
      then IO.ret true else stage_is_moving rest
  end.

(** [SMC100.is_disabled] (the getter). *)
Fixpoint stage_is_disabled (addresses : list Z) : IO.M I bool :=
  match addresses with
  | [] => IO.ret false
  | addr :: rest =>
      state <- get_error_and_state addr ;;
      if is_disabled state then IO.ret true else stage_is_disabled rest
  end.

(** [Link.receive] at the level of the bytes ([serial.read(1)[0]], a read
    with nothing to read blocks): the high bit is masked, LF ends the line,
    CR and NUL are dropped, every other byte is appended as [chr(c)]. *)
Fixpoint receive_bytes (fuel : nat) (response : string) : IO.M Z string :=
  match fuel with
  | O => IO.hang
  | S f =>
      b <- IO.read ;;
      match b with
      | None => IO.hang
      | Some b =>
          let c := Z.land b 127 in
          if Z.eqb c 10 then IO.ret response
          else if Z.eqb c 13 || Z.eqb c 0 then receive_bytes f response
          else receive_bytes f (response ++ String (ascii_of_nat (Z.to_nat c)) EmptyString)
      end
  end.

Definition link_receive : IO.M Z string :=
  IO.with_fuel (fun fuel => receive_bytes fuel EmptyString).

(** [SMC100.home_search]. *)
Fixpoint home_search (addresses : list Z) : IO.M I unit :=
  match addresses with
  | [] => IO.ret tt
  | addr :: rest =>
      get_error_and_state addr ;;;
      send (Some addr) "OR" ;;;
      home_search rest
  end.

(** [SMC100.home_search_if_required]. *)
Fixpoint home_search_if_required (addresses : list Z) : IO.M I unit :=
  match addresses with
  | [] => IO.ret tt
  | addr :: rest =>
      state <- get_error_and_state addr ;;
      (if negb (is_referenced state) then send (Some addr) "OR" else IO.ret tt) ;;;
      home_search_if_required rest
  end.
End SMC.

(** [int(s)] in base 10: surrounding whitespace, a sign and decimal digits
    (underscores between digits are not modelled). *)
Definition py_int10 (s : string) : res Z :=
  let l := Str.strip (list_ascii_of_string s) in
  let '(neg, l1) := Str.sign l in
  match Str.take_digits Str.digit l1 with
  | ((_ :: _) as ds, []) =>
      let v := Str.value_of 10 ds in Ok (if neg then - v else v)
  | _ => Err (ValueError MsgInvalidLiteral)
  end.

(** [bytes.decode()]: the ASCII case.  A byte above 0x7F is treated as
    undecodable, which is what Python does for a byte that does not start a
    well-formed UTF-8 sequence (well-formed multi-byte sequences are not
    modelled). *)
Definition decode (bs : list ascii) : res string :=
  if forallb (fun b => Nat.ltb (nat_of_ascii b) 128) bs
  then Ok (string_of_list_ascii bs)
  else Err (ValueError MsgInvalidLiteral).

(** ** m3fs.py: [M3FS] *)
Module M3FS.
Local Open Scope string_scope.

(** Each token received is one byte ([serial.read(1)]); no token left
    means that no further byte arrives. *)
Definition I := ascii.

Inductive M3FSCommand : Type :=
| READ_FIRM_VERSION
| MOVE_TO_TARGET
| VIEW_CLOSED_LOOP_STATUS_POS.

Definition value (c : M3FSCommand) : Z :=
  match c with
  | READ_FIRM_VERSION => 1
  | MOVE_TO_TARGET => 8
  | VIEW_CLOSED_LOOP_STATUS_POS => 10
  end.

(** [str(command)]. *)
Definition name (c : M3FSCommand) : string :=
  match c with
  | READ_FIRM_VERSION => "M3FSCommand.READ_FIRM_VERSION"
  | MOVE_TO_TARGET => "M3FSCommand.MOVE_TO_TARGET"
  | VIEW_CLOSED_LOOP_STATUS_POS => "M3FSCommand.VIEW_CLOSED_LOOP_STATUS_POS"
  end.

(** The first argument of the [ProtocolError]s raised by [command]. *)
Definition unexpected (c : M3FSCommand) : string :=
  "Unexpected response after sending command " ++ name c ++ ":".

(** ["{0:02d}".format(v)] for [0 <= v < 100]. *)
Definition two_digits (v : Z) : string :=
  String (ascii_of_nat (48 + Z.to_nat (v / 10)))
    (String (ascii_of_nat (48 + Z.to_nat (v mod 10))) EmptyString).

(** [__send]. *)
Definition send (command : M3FSCommand) (data : option string) : IO.M I unit :=
  match data with
  | Some d =>
      if Str.contains "<" d || Str.contains ">" d || Str.contains "013" d
      then IO.raise AssertionError else IO.ret tt
  | None => IO.ret tt
  end ;;;
  if negb (Z.leb 0 (value command) && Z.ltb (value command) 100)
  then IO.raise (ValueError MsgInvalidLiteral)
  else
    let full_command := "<" ++ two_digits (value command) in
    let full_command := match data with
                        | Some d => full_command ++ " " ++ d
                        | None => full_command
                        end in
    IO.write (full_command ++ ">" ++ String "013" EmptyString).

(** One [self.serial.read(1)]. [timeout] tells whether [serial.timeout]
    is set: [__init__] sets it to 1 for the version check and to [None]
    afterwards. With a timeout, a read with no byte arriving returns [b'']
    and [len(b) != 1] is a [ProtocolError()]; without one, it blocks. *)
Definition read1 (timeout : bool) : IO.M I ascii :=
  b <- IO.read ;;
  match b with
  | Some c => IO.ret c
  | None => if timeout then IO.raise (ProtocolError None None) else IO.hang
  end.

(** The loop of [__receive] collecting the bytes up to ['>'], in reverse. *)
Fixpoint body (timeout : bool) (fuel : nat) (acc : list ascii)
  : IO.M I (list ascii) :=
  match fuel with
  | O => IO.hang
  | S f =>
      b <- read1 timeout ;;
      if Ascii.eqb b ">" then IO.ret acc
      else if Ascii.eqb b "013" then IO.raise (ProtocolError None None)
      else body timeout f (b :: acc)
  end.

(** [__receive]. *)
Definition receive (timeout : bool) : IO.M I string :=
  b <- read1 timeout ;;
  if negb (Ascii.eqb b "<") then IO.raise (ProtocolError None None) else
  result <- IO.with_fuel (fun fuel => body timeout fuel []) ;;
  b <- read1 timeout ;;
  if negb (Ascii.eqb b "013") then IO.raise (ProtocolError None None) else
  IO.lift (decode (rev result)).

(** [command], with [timeout] as in [read1]. *)
Definition command (timeout : bool) (c : M3FSCommand) (data : option string)
  : IO.M I (option string) :=
  send c data ;;;
  res <- receive timeout ;;
  if Nat.ltb (String.length res) 2
  then IO.raise (ProtocolError (Some (unexpected c)) (Some res)) else
  n <- IO.lift (py_int10 (substring 0 2 res)) ;;
  if negb (Z.eqb n (value c))
  then IO.raise (ProtocolError (Some (unexpected c)) (Some res)) else
  if Nat.eqb (String.length res) 2 then IO.ret None
  else if negb (String.eqb (substring 2 1 res) " ")
  then IO.raise (ProtocolError (Some (unexpected c)) (Some res))
  else IO.ret (Some (substring 3 (String.length res - 3) res)).

(** [bytes.fromhex(x)]: pairs of hexadecimal digits, ASCII whitespace
    allowed before each pair. *)
Fixpoint fromhex (l : list ascii) : res (list Z) :=
  match l with
  | [] => Ok []
  | c :: l' =>
      if Str.is_byte_space c then fromhex l' else
      match l' with
      | d :: l'' =>
          match hex_digit c, hex_digit d with
          | Some h, Some k => let! r := fromhex l'' in Ok (h * 16 + k :: r)
          | _, _ => Err (ValueError MsgInvalidLiteral)
          end
      | [] => Err (ValueError MsgInvalidLiteral)
      end
  end.

Fixpoint fromhex_all (l : list string) : res (list (list Z)) :=
  match l with
  | [] => Ok []
  | x :: l' =>
      let! b := fromhex (list_ascii_of_string x) in
      let! r := fromhex_all l' in Ok (b :: r)
  end.

(** [int.from_bytes(b, "big", signed=...)]. *)
Definition from_bytes (b : list Z) (signed : bool) : Z :=
  let u := fold_left (fun acc x => acc * 256 + x) b 0 in
  let n := Z.of_nat (List.length b) in
  if signed && Z.leb (2 ^ (8 * n - 1)) u then u - 2 ^ (8 * n) else u.

(** [__get_closed_loop_status]. *)
Definition get_closed_loop_status : IO.M I (Z * Z * Z) :=
  res <- command false VIEW_CLOSED_LOOP_STATUS_POS None ;;
  match res with
  | None => IO.raise (ProtocolError (Some
      "Unexpected response after sending command M3FSCommand.VIEW_CLOSED_LOOP_STATUS_POS: Got response without data.") None)
  | Some r =>
      bs <- IO.lift (fromhex_all (Str.split " " r)) ;;
      match bs with
      | [b0; b1; b2] =>
          IO.ret (from_bytes b0 false, from_bytes b1 true, from_bytes b2 true)
      (* the message also formats the list, not kept here *)
      | _ => IO.raise (ProtocolError (Some
          "Unexpected response after sending command M3FSCommand.VIEW_CLOSED_LOOP_STATUS_POS: Expecting 3 values") None)
      end
  end.

(** [is_moving]: bit 2 of the motor status. *)
Definition is_moving : IO.M I bool :=
  st <- get_closed_loop_status ;;
  let '(motor_status, _, _) := st in
  IO.ret (negb (Z.eqb (Z.land motor_status 4) 0)).

(** The bytes of [u] in big-endian order, [n] of them. *)
Fixpoint bytes_be (n : nat) (u : Z) : list Z :=
  match n with
  | O => []
  | S k => (bytes_be k (u / 256) ++ [u mod 256])%list
  end.

(** [v.to_bytes(length, "big", signed=signed)]: [OverflowError] when [v]
    does not fit. *)
Definition to_bytes (v : Z) (length : nat) (signed : bool) : res (list Z) :=
  let bits := 8 * Z.of_nat length in
  let fits :=
    if signed then
      match length with
      | O => Z.eqb v 0
      | _ => Z.leb (- 2 ^ (bits - 1)) v && Z.ltb v (2 ^ (bits - 1))
      end
    else Z.leb 0 v && Z.ltb v (2 ^ bits) in
  if fits then Ok (bytes_be length (v mod 2 ^ bits)) else Err OverflowError.

(** A lowercase hexadecimal digit. *)
Definition hex_char (d : Z) : ascii :=
  ascii_of_nat (Z.to_nat (if Z.ltb d 10 then 48 + d else 87 + d)%Z).

(** [hexlify(b).decode()]. *)
Fixpoint hexlify (b : list Z) : string :=
  match b with
  | [] => EmptyString
  | x :: r => String (hex_char (x / 16)%Z) (String (hex_char (x mod 16)%Z) (hexlify r))
  end.

(** The data of the [MOVE_TO_TARGET] command sent by the [position] setter
    for the target [round(value.x / self.resolution_um)]. *)
Definition target_data (target : Z) : res string :=
  let! val := to_bytes target 4 true in Ok (hexlify val).
End M3FS.

(** ** corvus.py: [Corvus] *)
Module Corvus.
Local Open Scope string_scope.

(** Each token received is one line, CR-LF removed, as [receive] returns
    it; the port has no timeout, so a read with no token left blocks. *)
Definition I := string.

(** [send]: the command and a blank. *)
Definition send (command : string) : IO.M I unit := IO.write (command ++ " ").

Definition receive : IO.M I string :=
  r <- IO.read ;;
  match r with Some l => IO.ret l | None => IO.hang end.

Definition send_receive (command : string) : IO.M I string :=
  send command ;;; receive.

(** [is_moving]: bit 0 of the [st] status. *)
Definition is_moving : IO.M I bool :=
  r <- send_receive "st" ;;
  v <- IO.lift (py_int10 r) ;;
  IO.ret (negb (Z.eqb (Z.land v 1) 0)).
End Corvus.

(** ** pi.py: [PI] *)
Module PI.
Local Open Scope string_scope.

(** Each token received is one [readline()], decoded; no token left is the
    read timeout, [readline] returning an empty line. *)
Definition I := string.

Definition readline : IO.M I string :=
  r <- IO.read ;;
  IO.ret (match r with Some l => l | None => EmptyString end).

(** [s.split(" ", 2)]. *)
Definition split2 (s : string) : list string :=
  match Str.split1 " " s with
  | None => [s]
  | Some (a, r) =>
      match Str.split1 " " r with
      | None => [a; r]
      | Some (b, c) => [a; b; c]
      end
  end.

Definition strip (s : string) : string :=
  string_of_list_ascii (Str.strip (list_ascii_of_string s)).

Definition check (b : bool) : IO.M I unit :=
  if b then IO.ret tt else IO.raise AssertionError.

(** [is_moving]: the [#5] status of each axis, in turn. *)
Fixpoint is_moving (addresses : list Z) : IO.M I bool :=
  match addresses with
  | [] => IO.ret false
  | address :: rest =>
      IO.write (Str.of_Z address ++ " " ++ String "005" EmptyString) ;;;
      line <- readline ;;
      let response := split2 (strip line) in
      check (Nat.eqb (List.length response) 3) ;;;
      r0 <- IO.lift (py_int10 (nth 0 response EmptyString)) ;;
      check (Z.eqb r0 0) ;;;
      r1 <- IO.lift (py_int10 (nth 1 response EmptyString)) ;;
      check (Z.eqb r1 address) ;;;
      if negb (String.eqb (nth 2 response EmptyString) "0")
      then IO.ret true else is_moving rest
  end.

(** The line written by [query]. *)
Definition query_cmd (command : string) (address : option Z)
    (args : option (list string)) : string :=
  (match address with Some a => Str.of_Z a ++ " " | None => EmptyString end) ++
  command ++ "?" ++
  (match args with Some ((_ :: _) as l) => " " ++ Str.join " " l | _ => EmptyString end) ++
  String "010" EmptyString.

(** The [while True] loop of [query]; [int(response[1]) == address] is
    [False] when [address] is [None]. *)
Fixpoint query_loop (fuel : nat) (address : option Z) (responses : list string)
  : IO.M I (list string) :=
  match fuel with
  | O => IO.hang
  | S f =>
      line <- readline ;;
      let response := split2 (strip line) in
      check (Nat.eqb (List.length response) 3) ;;;
      r0 <- IO.lift (py_int10 (nth 0 response EmptyString)) ;;
      check (Z.eqb r0 0) ;;;
      r1 <- IO.lift (py_int10 (nth 1 response EmptyString)) ;;
      check (match address with Some a => Z.eqb r1 a | None => false end) ;;;
      let payload := strip (nth 2 response EmptyString) in
      let responses := (responses ++ [payload])%list in
      if negb (Str.endswith payload (" " ++ String "010" EmptyString))
      then IO.ret responses
      else query_loop f address responses
  end.

(** [query]. *)
Definition query (command : string) (address : option Z) (args : option (list string))
  : IO.M I (list string) :=
  IO.write (query_cmd command address args) ;;;
  IO.with_fuel (fun fuel => query_loop fuel address []).
End PI.

(** ** tic.py: [Tic] *)
Module Tic.
(** The variables of the Tic controller read by [get_variable]. *)
Record device : Type := mkdevice {
  current_position : Z;
  target_position : Z
}.

(** The [position] getter: [CURRENT_POSITION]. *)
Definition position (d : device) : Vector.vec := [PyInt (current_position d)].

(** The [target_position] getter: [TARGET_POSITION]. *)
Definition get_target_position (d : device) : Z := target_position d.

(** [is_moving]: no exchange with the device, the result is [False]. *)
Definition is_moving (d : device) : bool := false.

(** The arguments [write_32] passes to [ctrl_transfer]: request type,
    command, [data & 0xFFFF], [data >> 16] and the length [0]. *)
Definition write_32 (command data : Z) : Z * Z * Z * Z * Z :=
  (0x40, command, Z.land data 0xFFFF, Z.shiftr data 16, 0).
End Tic.

(** * Properties *)

(** ** Vector arithmetic *)

Lemma Py_cmp_numbers (x y : pyval) :
  Py.is_number x = true -> Py.is_number y = true -> exists c, Py.cmp x y = Ok c.
Proof.
  destruct x, y; simpl; try discriminate; intros _ _; eexists; reflexivity.
Qed.

Lemma Py_lt_numbers (x y : pyval) :
  Py.is_number x = true -> Py.is_number y = true -> exists b, Py.lt x y = Ok b.
Proof.
  intros Hx Hy. destruct (Py_cmp_numbers x y Hx Hy) as [c Hc].
  unfold Py.lt. rewrite Hc. simpl. eexists; reflexivity.
Qed.

Lemma Py_gt_numbers (x y : pyval) :
  Py.is_number x = true -> Py.is_number y = true -> exists b, Py.gt x y = Ok b.
Proof.
  intros Hx Hy. destruct (Py_cmp_numbers x y Hx Hy) as [c Hc].
  unfold Py.gt. rewrite Hc. simpl. eexists; reflexivity.
Qed.

Lemma Vector_map2_int_add_sub (a b : Vector.vec) :
  Vector.all_ints a -> Vector.all_ints b -> length a = length b ->
  exists c, Vector.map2 Py.add a b = Ok c /\ Vector.map2 Py.sub c b = Ok a /\
            length c = length a.
Proof.
  revert b. induction a as [|x a IH]; intros b Ha Hb Hlen.
  - destruct b; [|discriminate]. exists []. auto.
  - destruct b as [|y b]; [discriminate|].
    inversion Ha as [|? ? [zx Ex] Ha']; subst.
    inversion Hb as [|? ? [zy Ey] Hb']; subst.
    simpl in Hlen. injection Hlen as Hlen.
    destruct (IH b Ha' Hb' Hlen) as [c [Hadd [Hsub Hc]]].
    exists (PyInt (zx + zy) :: c). simpl.
    rewrite Hadd, Hsub. simpl. repeat split.
    + do 3 f_equal. lia.
    + now rewrite Hc.
Qed.

Lemma Vector_all_eq_refl_ints (a : Vector.vec) :
  Vector.all_ints a -> Vector.all_eq a a = true.
Proof.
  induction 1 as [|x a [z ->] _ IH]; simpl; auto.
  rewrite IH. unfold Py.eq, Py.cmp. now rewrite Z.compare_refl.
Qed.

(** ** The range check *)

Lemma Stage_range_loop_violation (vs mins maxs : Vector.vec) (i : nat) :
  Forall (fun x => Py.is_number x = true) vs ->
  length mins = length vs -> length maxs = length vs ->
  (exists k x m, nth_error vs k = Some x /\
     ((nth_error mins k = Some m /\ m <> PyNone /\ Py.lt x m = Ok true) \/
      (nth_error maxs k = Some m /\ m <> PyNone /\ Py.gt x m = Ok true))) ->
  exists j, Stage.range_loop i vs mins maxs = Err (ValueError (MsgSmallerThanMinimum j)) \/
            Stage.range_loop i vs mins maxs = Err (ValueError (MsgGreaterThanMaximum j)).
Proof.
  revert mins maxs i.
  induction vs as [|x vs IH]; intros mins maxs i Hnum Hl1 Hl2 [k [y [m [Hk Hv]]]].
  - destruct k; discriminate.
  - destruct mins as [|mn mins]; [discriminate|].
    destruct maxs as [|mx maxs]; [discriminate|].
    inversion Hnum as [|? ? Hx Hnum']; subst.
    simpl in Hl1, Hl2. injection Hl1 as Hl1. injection Hl2 as Hl2.
    assert (Hsmall : exists b, match mn with PyNone => Ok false | _ => Py.lt x mn end = Ok b).
    { destruct mn; [eexists; reflexivity| |];
        apply Py_lt_numbers; auto. }
    assert (Hgreat : exists b, match mx with PyNone => Ok false | _ => Py.gt x mx end = Ok b).
    { destruct mx; [eexists; reflexivity| |];
        apply Py_gt_numbers; auto. }
    destruct Hsmall as [bs Hs]. destruct Hgreat as [bg Hg].
    simpl. rewrite Hs. simpl.
    destruct bs; [exists i; left; reflexivity|].
    rewrite Hg. simpl.
    destruct bg; [exists i; right; reflexivity|].
    destruct k as [|k].
    + simpl in Hk. injection Hk as Hk. subst y. exfalso.
      destruct Hv as [[Hm [Hn Hlt]] | [Hm [Hn Hgt]]]; simpl in Hm;
        injection Hm as Hm; subst.
      * destruct m; [contradiction| |]; congruence.
      * destruct m; [contradiction| |]; congruence.
    + apply IH; auto. exists k, y, m. split; [exact Hk|].
      destruct Hv as [[Hm H]|[Hm H]]; [left|right]; split; auto.
Qed.

Lemma Stage_check_range_violation (st : Stage.stage) (v : Vector.vec) :
  length v = Stage.num_axis st -> Stage.bounds_fit st ->
  Forall (fun x => Py.is_number x = true) v ->
  (exists i, Stage.violates st v i) ->
  exists e, Stage.range_error e /\ Stage.check_range st v = Err e.
Proof.
  intros Hlen [Hfmin Hfmax] Hnum [i [x [Hx Hv]]].
  unfold Stage.check_range.
  assert (Hloop : forall mins maxs,
    length mins = length v -> length maxs = length v ->
    (exists m, (nth_error mins i = Some m /\ m <> PyNone /\ Py.lt x m = Ok true) \/
               (nth_error maxs i = Some m /\ m <> PyNone /\ Py.gt x m = Ok true)) ->
    exists e, Stage.range_error e /\
      (if negb (Nat.eqb (length mins) (length v)) || negb (Nat.eqb (length maxs) (length v))
       then Err (ValueError MsgInvalidBoundsDimension)
       else Stage.range_loop 0 v mins maxs) = Err e).
  { intros mins maxs H1 H2 [m Hm].
    rewrite H1, H2, Nat.eqb_refl. simpl.
    destruct (Stage_range_loop_violation v mins maxs 0 Hnum H1 H2) as [j [Hj | Hj]].
    - exists i, x, m. split; assumption.
    - exists (ValueError (MsgSmallerThanMinimum j)). split; [exists j; left; reflexivity | exact Hj].
    - exists (ValueError (MsgGreaterThanMaximum j)). split; [exists j; right; reflexivity | exact Hj]. }
  destruct Hv as [[ms [m [Hms [Hm [Hn Hlt]]]]] | [ms [m [Hms [Hm [Hn Hgt]]]]]].
  - rewrite Hms.
    assert (Hl : length ms = length v) by (rewrite (Hfmin ms Hms); auto).
    destruct (Stage.maximums st) as [Ms|] eqn:HM.
    + apply Hloop; auto. rewrite (Hfmax Ms); auto.
      exists m. left. auto.
    + apply Hloop; auto. exists m. left. auto.
  - rewrite Hms.
    assert (Hl : length ms = length v) by (rewrite (Hfmax ms Hms); auto).
    destruct (Stage.minimums st) as [Ms|] eqn:HM.
    + apply Hloop; auto. rewrite (Hfmin Ms); auto.
      exists m. right. auto.
    + apply Hloop; auto. exists m. right. auto.
Qed.

(** C1: a driver's [position] setter raises the dimension error when
    [len(v) != num_axis], and an out-of-range error when a component of a
    numeric [v] is below a set minimum or above a set maximum (the bounds
    having [num_axis] components, as their setters check); in both cases
    before anything is written to or read from the transport: the channel
    is returned unchanged. *)
Theorem Stage_position_set_checks_before_write :
  forall (I : Type) (drv_move : Vector.vec -> IO.M I unit)
         (st : Stage.stage) (v : Vector.vec) (ch : IO.chan I),
  (length v <> Stage.num_axis st ->
     Stage.position_set I drv_move st v ch =
     (IO.Raise (ValueError (MsgIncorrectDimension (length v) (Stage.num_axis st))), ch)) /\
  (length v = Stage.num_axis st -> Stage.bounds_fit st ->
   Forall (fun x => Py.is_number x = true) v ->
   (exists i, Stage.violates st v i) ->
   exists e, Stage.range_error e /\
             Stage.position_set I drv_move st v ch = (IO.Raise e, ch)).
Proof.
  intros I drv_move st v ch. split.
  - intros Hne. unfold Stage.position_set, Stage.check_dimension, IO.bind.
    destruct (Nat.eqb (Stage.num_axis st) (length v)) eqn:E.
    + apply Nat.eqb_eq in E. congruence.
    + reflexivity.
  - intros Hlen Hfit Hnum Hviol.
    destruct (Stage_check_range_violation st v Hlen Hfit Hnum Hviol) as [e [He Hr]].
    exists e. split; [exact He|].
    unfold Stage.position_set, Stage.check_dimension, IO.bind.
    rewrite Hlen, Nat.eqb_refl. simpl. rewrite Hr. reflexivity.
Qed.

Lemma Stage_position_set_checks_before_write_witness :
  Stage.position_set string (fun _ => IO.write "G0 X-1 Y5"%string)
    (Stage.mkstage 2 (Some [PyInt 0; PyNone]) None) [PyInt 1]
    (IO.mkchan [] []) =
  (IO.Raise (ValueError (MsgIncorrectDimension 1 2)), IO.mkchan [] []) /\
  exists e, Stage.range_error e /\
    Stage.position_set string (fun _ => IO.write "G0 X-1 Y5"%string)
      (Stage.mkstage 2 (Some [PyInt 0; PyNone]) None) [PyInt (-1); PyInt 5]
      (IO.mkchan [] []) = (IO.Raise e, IO.mkchan [] []).
Proof.
  split.
  - apply (proj1 (Stage_position_set_checks_before_write string
                    (fun _ => IO.write "G0 X-1 Y5"%string)
                    (Stage.mkstage 2 (Some [PyInt 0; PyNone]) None) [PyInt 1]
                    (IO.mkchan [] []))).
    simpl. discriminate.
  - apply (proj2 (Stage_position_set_checks_before_write string
                    (fun _ => IO.write "G0 X-1 Y5"%string)
                    (Stage.mkstage 2 (Some [PyInt 0; PyNone]) None) [PyInt (-1); PyInt 5]
                    (IO.mkchan [] []))).
    + reflexivity.
    + split; simpl; intros m Hm; [injection Hm as <-; reflexivity | discriminate].
    + repeat constructor.
    + exists 0%nat. exists (PyInt (-1)). split; [reflexivity|].
      left. exists [PyInt 0; PyNone], (PyInt 0).
      split; [reflexivity|]. split; [reflexivity|]. split; [discriminate|reflexivity].
Defined.

(** C8 (as amended): for vectors of different lengths, [+], [-] and [*] by
    a vector raise the dimension error [ValueError("Incorrect vector size")],
    while [/] by a vector raises [TypeError] whatever the lengths, division
    accepting only a number. *)
Theorem Vector_ops_dimension_mismatch (a b : Vector.vec) :
  (length a <> length b ->
   Vector.add a b = Err (ValueError MsgIncorrectVectorSize) /\
   Vector.sub a b = Err (ValueError MsgIncorrectVectorSize) /\
   Vector.mul a (Vector.Vec b) = Err (ValueError MsgIncorrectVectorSize)) /\
  Vector.truediv a (Vector.Vec b) = Err (TypeError MsgIncorrectOperandType).
Proof.
  split.
  - intros Hne.
    assert (E : Nat.eqb (length b) (length a) = false)
      by (apply Nat.eqb_neq; auto).
    unfold Vector.add, Vector.sub, Vector.mul.
    rewrite E. simpl. auto.
  - reflexivity.
Qed.

Lemma Vector_ops_dimension_mismatch_witness :
  (Vector.add [PyInt 1] [PyInt 1; PyInt 2] = Err (ValueError MsgIncorrectVectorSize) /\
   Vector.sub [PyInt 1] [PyInt 1; PyInt 2] = Err (ValueError MsgIncorrectVectorSize) /\
   Vector.mul [PyInt 1] (Vector.Vec [PyInt 1; PyInt 2]) = Err (ValueError MsgIncorrectVectorSize)) /\
  Vector.truediv [PyInt 1; PyInt 2] (Vector.Vec [PyInt 3; PyInt 4]) =
    Err (TypeError MsgIncorrectOperandType).
Proof.
  split.
  - apply (proj1 (Vector_ops_dimension_mismatch [PyInt 1] [PyInt 1; PyInt 2])).
    simpl. discriminate.
  - apply (proj2 (Vector_ops_dimension_mismatch [PyInt 1; PyInt 2] [PyInt 3; PyInt 4])).
Defined.

(** C8 counterexample: dividing [Vector(1)] by [Vector(1, 2)] raises
    [TypeError], not the dimension error. *)
Lemma Vector_truediv_mismatch_not_dimension_error :
  Vector.truediv [PyInt 1] (Vector.Vec [PyInt 1; PyInt 2]) =
    Err (TypeError MsgIncorrectOperandType) /\
  Vector.truediv [PyInt 1] (Vector.Vec [PyInt 1; PyInt 2]) <>
    Err (ValueError MsgIncorrectVectorSize).
Proof.
  split; [reflexivity | discriminate].
Qed.

(** C9 (as amended): for vectors of [int]s of equal length, [(a + b) - b]
    returns [a], and [==] holds. *)
Theorem Vector_add_sub_roundtrip_ints (a b : Vector.vec) :
  Vector.all_ints a -> Vector.all_ints b -> length a = length b ->
  exists c, Vector.add a b = Ok c /\ Vector.sub c b = Ok a /\
            Vector.eqb a a = true.
Proof.
  intros Ha Hb Hlen.
  destruct (Vector_map2_int_add_sub a b Ha Hb Hlen) as [c [Hadd [Hsub Hc]]].
  exists c. unfold Vector.add, Vector.sub, Vector.eqb.
  rewrite Hlen, Nat.eqb_refl. simpl. rewrite Hadd.
  rewrite Hc, Hlen, Nat.eqb_refl. simpl. rewrite Hsub.
  rewrite Vector_all_eq_refl_ints by exact Ha. auto.
Qed.

Lemma Vector_add_sub_roundtrip_ints_witness :
  exists c, Vector.add [PyInt 2; PyInt 3] [PyInt 7; PyInt (-11)] = Ok c /\
            Vector.sub c [PyInt 7; PyInt (-11)] = Ok [PyInt 2; PyInt 3] /\
            Vector.eqb [PyInt 2; PyInt 3] [PyInt 2; PyInt 3] = true.
Proof.
  apply Vector_add_sub_roundtrip_ints.
  - repeat constructor; eexists; reflexivity.
  - repeat constructor; eexists; reflexivity.
  - reflexivity.
Defined.

(** C9 counterexample: with [float] components, [a = Vector(0.1)] and
    [b = Vector(0.2)], [(a + b) - b] is [Vector(0.10000000000000003)], and
    [(a + b) - b == a] is [False]. *)
Lemma Vector_add_sub_float_not_roundtrip :
  exists c d,
    Vector.add [PyFloat (F64.of_decimal false 1 1)] [PyFloat (F64.of_decimal false 2 1)] = Ok c /\
    Vector.sub c [PyFloat (F64.of_decimal false 2 1)] = Ok d /\
    Vector.eqb d [PyFloat (F64.of_decimal false 1 1)] = false.
Proof.
  eexists; eexists. split; [reflexivity|]. split; [reflexivity|].
  vm_compute. reflexivity.
Qed.

(** ** [Stage.home] *)

(** C10: [Stage.home(wait)] is [move_to(Vector(dim=num_axis), wait)]; when
    a set minimum is above [0] or a set maximum is below [0] at some axis
    (the bounds having [num_axis] components), it raises the out-of-range
    error with the channel unchanged: no motion command is written. *)
Theorem Stage_home_zero_vector :
  forall (I : Type) (drv_move : Vector.vec -> IO.M I unit)
         (is_moving : IO.M I bool) (wait_routine : option (IO.M I unit))
         (fuel : nat) (st : Stage.stage) (wait : bool) (ch : IO.chan I),
  Stage.home I drv_move is_moving wait_routine fuel st wait ch =
    Stage.move_to I drv_move is_moving wait_routine fuel st
      (Vector.zeros (Stage.num_axis st)) wait ch /\
  (Stage.bounds_fit st ->
   (exists i, Stage.violates st (Vector.zeros (Stage.num_axis st)) i) ->
   exists e, Stage.range_error e /\
     Stage.home I drv_move is_moving wait_routine fuel st wait ch = (IO.Raise e, ch)).
Proof.
  intros I drv_move is_moving wait_routine fuel st wait ch. split; [reflexivity|].
  intros Hfit Hviol.
  assert (Hlen : length (Vector.zeros (Stage.num_axis st)) = Stage.num_axis st)
    by apply repeat_length.
  assert (Hnum : Forall (fun x => Py.is_number x = true) (Vector.zeros (Stage.num_axis st))).
  { apply Forall_forall. intros x Hx. apply repeat_spec in Hx. subst x. reflexivity. }
  destruct (Stage_check_range_violation st _ Hlen Hfit Hnum Hviol) as [e [He Hr]].
  exists e. split; [exact He|].
  unfold Stage.home, Stage.move_to, Stage.position_set, Stage.check_dimension, IO.bind.
  rewrite Hlen, Nat.eqb_refl. simpl. rewrite Hr. reflexivity.
Qed.

Lemma Stage_home_zero_vector_witness :
  exists e, Stage.range_error e /\
    Stage.home string (fun _ => IO.write "<08 00000000>"%string) (IO.ret false) None 1
      (Stage.mkstage 1 (Some [PyFloat (F64.of_decimal false 5 1)]) None) true
      (IO.mkchan [] []) = (IO.Raise e, IO.mkchan [] []).
Proof.
  apply (proj2 (Stage_home_zero_vector string (fun _ => IO.write "<08 00000000>"%string)
                  (IO.ret false) None 1
                  (Stage.mkstage 1 (Some [PyFloat (F64.of_decimal false 5 1)]) None) true
                  (IO.mkchan [] []))).
  - split; simpl; intros m Hm; [injection Hm as <-; reflexivity | discriminate].
  - exists 0%nat, (PyInt 0). split; [reflexivity|]. left.
    exists [PyFloat (F64.of_decimal false 5 1)], (PyFloat (F64.of_decimal false 5 1)).
    split; [reflexivity|]. split; [reflexivity|]. split; [discriminate|].
    vm_compute. reflexivity.
Defined.

(** ** GRBL status reports *)

Definition grbl_idle_report : string :=
  "<Idle|MPos:1.000,3.000,4.000|FS:0,0|WCO:0.000,0.000,0.000>"%string.

(** C2: the report [grbl_idle_report] parses to status [Idle] and the
    fields [MPos], [FS], [WCO] split on commas; the [position] getter reading
    it returns MPos - WCO = (1.0, 3.0, 4.0), after writing one ['?']. *)
Theorem CNC_idle_report_position (rest : list string) (tx : list string) :
  CNC.get_current_status (IO.mkchan (grbl_idle_report :: rest) tx) =
    (IO.Ret (Some (IDLE,
       [("MPos"%string, CNC.DList ["1.000"; "3.000"; "4.000"]%string);
        ("FS"%string, CNC.DList ["0"; "0"]%string);
        ("WCO"%string, CNC.DList ["0.000"; "0.000"; "0.000"]%string)])),
     IO.mkchan rest (tx ++ ["?"%string])) /\
  CNC.position (IO.mkchan (grbl_idle_report :: rest) tx) =
    (IO.Ret [PyFloat (F64.of_Z 1); PyFloat (F64.of_Z 3); PyFloat (F64.of_Z 4)],
     IO.mkchan rest (tx ++ ["?"%string])).
Proof.
  split; vm_compute; reflexivity.
Qed.

(** C6: when the status query receives the line [ALARM:1] followed by a
    message line, [get_current_status] raises [CNCError(message,
    CNCStatus.ALARM)], which is not a [ProtocolError]. *)
Theorem CNC_alarm_raises_cnc_error (message : string) (rest tx : list string) :
  CNC.get_current_status (IO.mkchan ("ALARM:1"%string :: message :: rest) tx) =
    (IO.Raise (CNCError message ALARM), IO.mkchan rest (tx ++ ["?"%string])) /\
  (forall q r, CNCError message ALARM <> ProtocolError q r).
Proof.
  split.
  - vm_compute. reflexivity.
  - intros q r. discriminate.
Qed.

(** ** SMC100 queries *)

Section SMCQuery.
Local Open Scope string_scope.
Variable addr : Z.
Variable cmd : string.

Ltac smc_step :=
  cbv [SMC.query_fuel IO.catch_protocol IO.bind SMC.send IO.write SMC.response
       SMC.receive IO.read IO.ret IO.raise IO.hang SMC.addr_prefix] in *;
  cbn [IO.rx IO.tx] in *.

Lemma SMC_query_fuel_retries (bads : list string) (good : string)
    (rest tx : list string) (fuel : nat) :
  Forall (fun r => String.prefix (SMC.addr_prefix (Some addr) ++ cmd) r = false) bads ->
  String.prefix (SMC.addr_prefix (Some addr) ++ cmd) good = true ->
  (length bads < fuel)%nat ->
  SMC.query_fuel fuel (Some addr) cmd false (IO.mkchan (bads ++ good :: rest) tx) =
    (IO.Ret (Some (substring (String.length (SMC.addr_prefix (Some addr) ++ cmd))
                     (String.length good - String.length (SMC.addr_prefix (Some addr) ++ cmd))
                     good)),
     IO.mkchan rest (tx ++ repeat (SMC.addr_prefix (Some addr) ++ (cmd ++ "?") ++
                                   String "013" (String "010" EmptyString))
                                  (S (length bads)))).
Proof.
  revert tx fuel.
  induction bads as [|b bads IH]; intros tx fuel Hbad Hgood Hfuel.
  - destruct fuel as [|f]; [simpl in Hfuel; lia|].
    simpl app. smc_step. rewrite Hgood. reflexivity.
  - destruct fuel as [|f]; [simpl in Hfuel; lia|].
    inversion Hbad as [|? ? Hb Hbad']; subst.
    simpl app. smc_step. rewrite Hb.
    rewrite IH; auto; [|simpl in Hfuel; lia].
    rewrite <- app_assoc. reflexivity.
Qed.

Lemma SMC_query_fuel_hangs (rx tx : list string) (fuel : nat) :
  Forall (fun r => String.prefix (SMC.addr_prefix (Some addr) ++ cmd) r = false) rx ->
  exists c, SMC.query_fuel fuel (Some addr) cmd false (IO.mkchan rx tx) = (IO.Hang, c).
Proof.
  revert tx fuel. induction rx as [|r rx IH]; intros tx fuel Hbad.
  - destruct fuel; smc_step; eexists; reflexivity.
  - destruct fuel as [|f]; [smc_step; eexists; reflexivity|].
    inversion Hbad as [|? ? Hb Hbad']; subst.
    smc_step. rewrite Hb. apply IH; auto.
Qed.
End SMCQuery.

Lemma string_length_append (s t : string) :
  String.length (s ++ t) = (String.length s + String.length t)%nat.
Proof. induction s as [|a s IH]; simpl; auto. Qed.

Lemma string_append_assoc (s t u : string) : ((s ++ t) ++ u = s ++ (t ++ u))%string.
Proof. induction s as [|a s IH]; simpl; [reflexivity | now rewrite IH]. Qed.

Lemma string_prefix_app (s t : string) : String.prefix s (s ++ t) = true.
Proof.
  induction s as [|a s IH]; simpl.
  - destruct t; reflexivity.
  - destruct (Ascii.ascii_dec a a); [exact IH | contradiction].
Qed.

Lemma string_substring_app (s t : string) :
  substring (String.length s) (String.length (s ++ t) - String.length s) (s ++ t) = t.
Proof.
  rewrite string_length_append.
  replace (String.length s + String.length t - String.length s)%nat
    with (String.length t) by lia.
  induction s as [|a s IH]; simpl.
  - induction t as [|b t IHt]; simpl; [reflexivity | now rewrite IHt].
  - exact IH.
Qed.

(** C3 (as amended): [Link.query] re-sends the query after every response
    without the echoed [{address}{command}] header, with no limit on the
    number of attempts: after [k] mismatching responses followed by a
    matching one it returns that response's payload, having sent the query
    [k + 1] times; while only mismatching responses arrive it keeps
    re-sending and blocks on the next read.  The [ProtocolError] of a
    mismatch never reaches the caller of [query]. *)
Theorem SMC_query_retries_without_limit (addr : Z) (cmd : string) :
  (forall (bads : list string) (good : string) (rest tx : list string),
     Forall (fun r => String.prefix (SMC.addr_prefix (Some addr) ++ cmd)%string r = false) bads ->
     String.prefix (SMC.addr_prefix (Some addr) ++ cmd)%string good = true ->
     SMC.query (Some addr) cmd false (IO.mkchan (bads ++ good :: rest) tx) =
       (IO.Ret (Some (substring (String.length (SMC.addr_prefix (Some addr) ++ cmd)%string)
                        (String.length good - String.length (SMC.addr_prefix (Some addr) ++ cmd)%string)
                        good)),
        IO.mkchan rest (tx ++ repeat (SMC.addr_prefix (Some addr) ++ (cmd ++ "?") ++
                                      String "013" (String "010" EmptyString))%string
                                     (S (length bads))))) /\
  (forall (rx tx : list string),
     Forall (fun r => String.prefix (SMC.addr_prefix (Some addr) ++ cmd)%string r = false) rx ->
     exists c, SMC.query (Some addr) cmd false (IO.mkchan rx tx) = (IO.Hang, c)).
Proof.
  split.
  - intros bads good rest tx Hbad Hgood.
    unfold SMC.query, IO.with_fuel. cbn [IO.rx].
    apply SMC_query_fuel_retries; auto.
    rewrite length_app. simpl. lia.
  - intros rx tx Hbad. unfold SMC.query, IO.with_fuel.
    apply SMC_query_fuel_hangs; auto.
Qed.

Lemma SMC_query_retries_without_limit_witness :
  SMC.query (Some 1) "TS"%string false
    (IO.mkchan (["2TS000033"%string; "1T"%string] ++ ["1TS000033"%string]) []) =
  (IO.Ret (Some "000033"%string),
   IO.mkchan [] (repeat ("1TS?" ++ String "013" (String "010" EmptyString))%string 3)) /\
  exists c, SMC.query (Some 1) "TS"%string false
              (IO.mkchan ["2TS000033"; "1T"]%string []) = (IO.Hang, c).
Proof.
  split.
  - apply (proj1 (SMC_query_retries_without_limit 1 "TS"%string)
             ["2TS000033"; "1T"]%string "1TS000033"%string [] []).
    + repeat constructor.
    + reflexivity.
  - apply (proj2 (SMC_query_retries_without_limit 1 "TS"%string)).
    repeat constructor.
Defined.

(** C3 counterexample: two mismatching responses to [1TS?] in a row do
    not surface a [ProtocolError]: the query is sent a third time and the
    matching third response is returned. *)
Lemma SMC_query_two_mismatches_no_error :
  SMC.query (Some 1) "TS"%string false
    (IO.mkchan ["2TS000033"; "1T"; "1TS000033"]%string []) =
  (IO.Ret (Some "000033"%string),
   IO.mkchan [] (repeat ("1TS?" ++ String "013" (String "010" EmptyString))%string 3)).
Proof. vm_compute. reflexivity. Qed.

(** ** SMC100 status codes *)

(** C4 (as amended): the status code ["000028"] (fault bits [0000], state
    [0x28]) decodes to no fault flag and [MOVING], for which [is_moving] is
    true and [is_ready] false; [get_error_and_state] returns it when the
    controller answers [{addr}TS000028]. *)
Theorem SMC_status_000028_moving (addr : Z) (rest tx : list string) :
  SMC.decode_error_and_state (Some "000028"%string) =
    Ok (SMC.mkErrorAndState SMC.NO_ERROR SMC.MOVING) /\
  SMC.is_moving (SMC.mkErrorAndState SMC.NO_ERROR SMC.MOVING) = true /\
  SMC.is_ready (SMC.mkErrorAndState SMC.NO_ERROR SMC.MOVING) = false /\
  SMC.get_error_and_state addr
    (IO.mkchan ((Str.of_Z addr ++ "TS000028")%string :: rest) tx) =
    (IO.Ret (SMC.mkErrorAndState SMC.NO_ERROR SMC.MOVING),
     IO.mkchan rest (tx ++ [(Str.of_Z addr ++ ("TS" ++ "?") ++
                             String "013" (String "010" EmptyString))%string])).
Proof.
  split; [reflexivity|]. split; [reflexivity|]. split; [reflexivity|].
  unfold SMC.get_error_and_state, SMC.query, IO.with_fuel. cbn [IO.rx].
  unfold IO.bind at 1.
  rewrite (SMC_query_fuel_retries addr "TS"%string [] (Str.of_Z addr ++ "TS000028")%string
             rest tx).
  - simpl SMC.addr_prefix.
    replace (Str.of_Z addr ++ "TS000028")%string
      with ((Str.of_Z addr ++ "TS") ++ "000028")%string
      by (rewrite string_append_assoc; reflexivity).
    rewrite string_substring_app. reflexivity.
  - constructor.
  - simpl SMC.addr_prefix.
    replace (Str.of_Z addr ++ "TS000028")%string
      with ((Str.of_Z addr ++ "TS") ++ "000028")%string
      by (rewrite string_append_assoc; reflexivity).
    apply string_prefix_app.
  - simpl. lia.
Qed.

(** C4 counterexample: the code ["002832"] (and already ["000032"]) is not
    [MOVING]: its state byte [0x32] is [READY_FROM_HOMING], and its fault
    bits [0x0028] are [FOLLOWING_ERROR | RMS_CURRENT_LIMIT]. *)
Lemma SMC_status_002832_not_moving :
  SMC.decode_error_and_state (Some "002832"%string) =
    Ok (SMC.mkErrorAndState 40 SMC.READY_FROM_HOMING) /\
  SMC.decode_error_and_state (Some "000032"%string) =
    Ok (SMC.mkErrorAndState SMC.NO_ERROR SMC.READY_FROM_HOMING) /\
  SMC.is_moving (SMC.mkErrorAndState 40 SMC.READY_FROM_HOMING) = false /\
  SMC.is_ready (SMC.mkErrorAndState 40 SMC.READY_FROM_HOMING) = true.
Proof. repeat split; reflexivity. Qed.

(** *** m3fs.py *)

Lemma Str_digit_in (c : ascii) (v : Z) :
  Str.digit c = Some v ->
  In c ["0"; "1"; "2"; "3"; "4"; "5"; "6"; "7"; "8"; "9"]%char.
Proof.
  intros H.
  destruct c as [[] [] [] [] [] [] [] []]; vm_compute in H; try discriminate;
    vm_compute; tauto.
Qed.

Lemma py_int10_two_digits (c1 c2 : ascii) (v1 v2 : Z) :
  Str.digit c1 = Some v1 -> Str.digit c2 = Some v2 ->
  py_int10 (String c1 (String c2 EmptyString)) = Ok (10 * v1 + v2).
Proof.
  intros H1 H2.
  pose proof (Str_digit_in c1 v1 H1) as I1.
  pose proof (Str_digit_in c2 v2 H2) as I2.
  cbv [In] in I1, I2.
  repeat (destruct I1 as [<- | I1]); try contradiction;
  repeat (destruct I2 as [<- | I2]); try contradiction;
  vm_compute in H1, H2; injection H1 as <-; injection H2 as <-; vm_compute; reflexivity.
Qed.

(** The loop of [__receive] on a frame body free of ['>'] and CR. *)
Lemma M3FS_body_frame (timeout : bool) (body r : list ascii) (acc : list ascii)
    (tx : list string) (fuel : nat) :
  Forall (fun b => Ascii.eqb b ">" = false /\ Ascii.eqb b "013" = false) body ->
  (length body < fuel)%nat ->
  M3FS.body timeout fuel acc (IO.mkchan (body ++ ">"%char :: r) tx) =
    (IO.Ret (rev body ++ acc), IO.mkchan r tx).
Proof.
  revert acc fuel.
  induction body as [| b body IH]; intros acc fuel Hb Hf;
    (destruct fuel as [| fuel]; [simpl in Hf; lia |]).
  - reflexivity.
  - inversion Hb as [| ? ? [Hgt Hcr] Hb']; subst.
    simpl. unfold M3FS.read1, IO.bind, IO.read, IO.ret. cbn [IO.rx IO.tx].
    rewrite Hgt, Hcr.
    rewrite IH by (auto; simpl in Hf; lia).
    rewrite <- app_assoc. reflexivity.
Qed.

Lemma M3FS_receive_frame (timeout : bool) (body r : list ascii) (tx : list string) :
  Forall (fun b => Ascii.eqb b ">" = false /\ Ascii.eqb b "013" = false) body ->
  forallb (fun b => Nat.ltb (nat_of_ascii b) 128) body = true ->
  M3FS.receive timeout
    (IO.mkchan ("<"%char :: body ++ ">"%char :: "013"%char :: r) tx) =
    (IO.Ret (string_of_list_ascii body), IO.mkchan r tx).
Proof.
  intros Hb Ha.
  unfold M3FS.receive, M3FS.read1, IO.bind, IO.read, IO.ret, IO.with_fuel.
  cbn [IO.rx IO.tx Ascii.eqb negb Bool.eqb].
  rewrite M3FS_body_frame by (auto; rewrite length_app; simpl; lia).
  cbn [IO.rx IO.tx Ascii.eqb negb Bool.eqb]. rewrite app_nil_r, rev_involutive.
  unfold decode. rewrite Ha. reflexivity.
Qed.

(** After ['>'], a byte other than CR raises [ProtocolError()]; no byte at
    all raises it with a timeout and blocks without one. *)
Lemma M3FS_receive_no_cr (timeout : bool) (body after : list ascii)
    (tx : list string) :
  Forall (fun b => Ascii.eqb b ">" = false /\ Ascii.eqb b "013" = false) body ->
  (after = [] \/ exists b r, after = b :: r /\ b <> "013"%char) ->
  exists ch,
    M3FS.receive timeout (IO.mkchan ("<"%char :: body ++ ">"%char :: after) tx) =
    ((if (match after with [] => negb timeout | _ => false end)
      then IO.Hang else IO.Raise (ProtocolError None None)), ch).
Proof.
  intros Hb Ha.
  unfold M3FS.receive, M3FS.read1, IO.bind, IO.read, IO.ret, IO.with_fuel.
  cbn [IO.rx IO.tx Ascii.eqb negb Bool.eqb].
  rewrite M3FS_body_frame by (auto; rewrite length_app; simpl; lia).
  cbn [IO.rx IO.tx].
  destruct Ha as [-> | (b & r & -> & Hb')].
  - destruct timeout; eexists; reflexivity.
  - apply Ascii.eqb_neq in Hb'. rewrite Hb'. eexists. reflexivity.
Qed.

Lemma M3FS_send_frame (c : M3FS.M3FSCommand) (data : option string)
    (rx : list ascii) (tx : list string) :
  (forall d, data = Some d ->
     Str.contains "<" d = false /\ Str.contains ">" d = false /\
     Str.contains "013" d = false) ->
  exists s, M3FS.send c data (IO.mkchan rx tx) = (IO.Ret tt, IO.mkchan rx (tx ++ [s])).
Proof.
  intros Hd. unfold M3FS.send, IO.bind.
  destruct data as [d |].
  - destruct (Hd d eq_refl) as (H1 & H2 & H3). rewrite H1, H2, H3.
    destruct c; eexists; reflexivity.
  - destruct c; eexists; reflexivity.
Qed.

(** C5 (as corrected): for any command [c] whose data passes the assertion
    of [__send], with or without the serial timeout:
    (1) the message of the [ProtocolError]s of [command] is
    ["Unexpected response after sending command {c}:"];
    (2) a well-framed response ['<' d1 d2 more '>' CR] (ASCII, no ['>'] or
    CR inside) whose two leading digits read a number other than the ID of
    [c] raises [ProtocolError] with that message and, as second argument,
    the raw response [d1 d2 more];
    (3) a response whose byte after ['>'] is not a carriage return raises
    [ProtocolError()];
    (4) a response after whose ['>'] no byte arrives raises
    [ProtocolError()] when the timeout is set (the version check of
    [__init__]), and blocks when it is not (every command after
    [__init__]). *)
Theorem M3FS_command_protocol_errors (timeout : bool) (c : M3FS.M3FSCommand)
    (data : option string) (tx : list string) :
  (forall d, data = Some d ->
     Str.contains "<" d = false /\ Str.contains ">" d = false /\
     Str.contains "013" d = false) ->
  M3FS.unexpected c =
    ("Unexpected response after sending command " ++ M3FS.name c ++ ":")%string /\
  (forall (c1 c2 : ascii) (v1 v2 : Z) (more rest : list ascii),
     Str.digit c1 = Some v1 -> Str.digit c2 = Some v2 -> 10 * v1 + v2 <> M3FS.value c ->
     Forall (fun b => Ascii.eqb b ">" = false /\ Ascii.eqb b "013" = false) more ->
     forallb (fun b => Nat.ltb (nat_of_ascii b) 128) more = true ->
     exists ch,
       M3FS.command timeout c data
         (IO.mkchan ("<"%char :: c1 :: c2 :: more ++ ">"%char :: "013"%char :: rest) tx) =
       (IO.Raise (ProtocolError (Some (M3FS.unexpected c))
                   (Some (string_of_list_ascii (c1 :: c2 :: more)))), ch)) /\
  (forall (body : list ascii) (b : ascii) (r : list ascii),
     Forall (fun b => Ascii.eqb b ">" = false /\ Ascii.eqb b "013" = false) body ->
     b <> "013"%char ->
     exists ch,
       M3FS.command timeout c data
         (IO.mkchan ("<"%char :: body ++ ">"%char :: b :: r) tx) =
       (IO.Raise (ProtocolError None None), ch)) /\
  (forall (body : list ascii),
     Forall (fun b => Ascii.eqb b ">" = false /\ Ascii.eqb b "013" = false) body ->
     exists ch,
       M3FS.command timeout c data (IO.mkchan ("<"%char :: body ++ [">"%char]) tx) =
       ((if timeout then IO.Raise (ProtocolError None None) else IO.Hang), ch)).
Proof.
  intros Hd. split; [reflexivity | split; [| split]].
  - intros c1 c2 v1 v2 more rest H1 H2 Hne Hb Ha.
    unfold M3FS.command, IO.bind at 1.
    destruct (M3FS_send_frame c data
                ("<"%char :: c1 :: c2 :: more ++ ">"%char :: "013"%char :: rest) tx Hd)
      as [s ->].
    unfold IO.bind at 1.
    pose proof (Str_digit_in c1 v1 H1) as I1.
    pose proof (Str_digit_in c2 v2 H2) as I2.
    change (c1 :: c2 :: more ++ ">"%char :: "013"%char :: rest)
      with ((c1 :: c2 :: more) ++ ">"%char :: "013"%char :: rest).
    rewrite M3FS_receive_frame.
    + cbn [string_of_list_ascii String.length Nat.ltb Nat.leb].
      replace (substring 0 2 (String c1 (String c2 (string_of_list_ascii more))))
        with (String c1 (String c2 EmptyString))
        by (destruct (string_of_list_ascii more); reflexivity).
      rewrite (py_int10_two_digits c1 c2 v1 v2 H1 H2).
      unfold IO.bind, IO.lift, IO.ret. apply Z.eqb_neq in Hne. rewrite Hne.
      eexists. reflexivity.
    + constructor; [| constructor; [| exact Hb]].
      * cbv [In] in I1.
        repeat (destruct I1 as [<- | I1]); try contradiction; split; reflexivity.
      * cbv [In] in I2.
        repeat (destruct I2 as [<- | I2]); try contradiction; split; reflexivity.
    + cbn [forallb]. rewrite Ha, andb_true_r.
      cbv [In] in I1, I2.
      repeat (destruct I1 as [<- | I1]); try contradiction;
      repeat (destruct I2 as [<- | I2]); try contradiction; reflexivity.
  - intros body b r Hb Hcr.
    unfold M3FS.command, IO.bind at 1.
    destruct (M3FS_send_frame c data ("<"%char :: body ++ ">"%char :: b :: r) tx Hd)
      as [s ->].
    unfold IO.bind at 1.
    destruct (M3FS_receive_no_cr timeout body (b :: r) (tx ++ [s]) Hb
                (or_intror (ex_intro _ b (ex_intro _ r (conj eq_refl Hcr)))))
      as [ch ->].
    eexists. reflexivity.
  - intros body Hb.
    unfold M3FS.command, IO.bind at 1.
    destruct (M3FS_send_frame c data ("<"%char :: body ++ [">"%char]) tx Hd)
      as [s ->].
    unfold IO.bind at 1.
    destruct (M3FS_receive_no_cr timeout body [] (tx ++ [s]) Hb (or_introl eq_refl))
      as [ch ->].
    destruct timeout; eexists; reflexivity.
Qed.

Lemma M3FS_command_protocol_errors_witness :
  (forall d, @None string = Some d ->
     Str.contains "<" d = false /\ Str.contains ">" d = false /\
     Str.contains "013" d = false) /\
  (exists ch,
     M3FS.command false M3FS.VIEW_CLOSED_LOOP_STATUS_POS None
       (IO.mkchan ["<"; "0"; "2"; ">"; "013"]%char []) =
     (IO.Raise (ProtocolError (Some (M3FS.unexpected M3FS.VIEW_CLOSED_LOOP_STATUS_POS))
                 (Some "02"%string)), ch)) /\
  (exists ch,
     M3FS.command false M3FS.VIEW_CLOSED_LOOP_STATUS_POS None
       (IO.mkchan ["<"; "1"; "0"; ">"; "<"]%char []) =
     (IO.Raise (ProtocolError None None), ch)) /\
  (exists ch,
     M3FS.command true M3FS.READ_FIRM_VERSION None
       (IO.mkchan ["<"; "0"; "1"; ">"]%char []) =
     (IO.Raise (ProtocolError None None), ch)) /\
  (exists ch,
     M3FS.command false M3FS.VIEW_CLOSED_LOOP_STATUS_POS None
       (IO.mkchan ["<"; "1"; "0"; ">"]%char []) =
     (IO.Hang, ch)).
Proof.
  assert (Hd : forall d, @None string = Some d ->
     Str.contains "<" d = false /\ Str.contains ">" d = false /\
     Str.contains "013" d = false) by (intros d H; discriminate H).
  destruct (M3FS_command_protocol_errors false M3FS.VIEW_CLOSED_LOOP_STATUS_POS
              None [] Hd) as (_ & Hid & Hcr & Hend).
  destruct (M3FS_command_protocol_errors true M3FS.READ_FIRM_VERSION
              None [] Hd) as (_ & _ & _ & Hend').
  split; [exact Hd | split; [| split; [| split]]].
  - apply (Hid "0"%char "2"%char 0 2 [] []);
      [reflexivity | reflexivity | simpl; lia | constructor | reflexivity].
  - apply (Hcr ["1"; "0"]%char "<"%char []).
    + repeat constructor.
    + discriminate.
  - apply (Hend' ["0"; "1"]%char). repeat constructor.
  - apply (Hend ["1"; "0"]%char). repeat constructor.
Defined.

(** C5 counterexample: after [__init__] the serial timeout is [None]; a
    response to the status query that stops after ['>'] with no carriage
    return raises no [ProtocolError]: [command] and [is_moving] block. *)
Lemma M3FS_missing_cr_blocks :
  fst (M3FS.command false M3FS.VIEW_CLOSED_LOOP_STATUS_POS None
         (IO.mkchan ["<"; "1"; "0"; ">"]%char [])) = IO.Hang /\
  fst (M3FS.is_moving
         (IO.mkchan (list_ascii_of_string "<10 000004 00000000 00000000>") [])) = IO.Hang.
Proof.
  split; vm_compute; reflexivity.
Qed.

(** *** is_moving of the drivers *)

(** C7 (as corrected): the [is_moving] of [CNCRouter], [SMC100], [M3FS],
    [Corvus] and [PI] write their status query when called and read their
    answer from the device's response: the same call returns [True] or
    [False] depending on what the device answers, after the same write.
    [Tic.is_moving] exchanges nothing with the device and is [False] for
    every device state. *)
Theorem Drivers_is_moving_queries_device (rest tx : list string) (brest : list ascii) :
  CNC.is_moving (IO.mkchan ("<Run|MPos:1.000,3.000,4.000|FS:0,0>"%string :: rest) tx) =
    (IO.Ret true, IO.mkchan rest (tx ++ ["?"%string])) /\
  CNC.is_moving (IO.mkchan ("<Idle|MPos:1.000,3.000,4.000|FS:0,0>"%string :: rest) tx) =
    (IO.Ret false, IO.mkchan rest (tx ++ ["?"%string])) /\
  SMC.stage_is_moving [1] (IO.mkchan ("1TS000028"%string :: rest) tx) =
    (IO.Ret true, IO.mkchan rest (tx ++ [("1TS?" ++ String "013" (String "010" EmptyString))%string])) /\
  SMC.stage_is_moving [1] (IO.mkchan ("1TS000033"%string :: rest) tx) =
    (IO.Ret false, IO.mkchan rest (tx ++ [("1TS?" ++ String "013" (String "010" EmptyString))%string])) /\
  M3FS.is_moving
    (IO.mkchan (list_ascii_of_string "<10 000004 00000000 00000000>" ++ "013"%char :: brest) tx) =
    (IO.Ret true, IO.mkchan brest (tx ++ [("<10>" ++ String "013" EmptyString)%string])) /\
  M3FS.is_moving
    (IO.mkchan (list_ascii_of_string "<10 000000 00000000 00000000>" ++ "013"%char :: brest) tx) =
    (IO.Ret false, IO.mkchan brest (tx ++ [("<10>" ++ String "013" EmptyString)%string])) /\
  Corvus.is_moving (IO.mkchan ("1"%string :: rest) tx) =
    (IO.Ret true, IO.mkchan rest (tx ++ ["st "%string])) /\
  Corvus.is_moving (IO.mkchan ("0"%string :: rest) tx) =
    (IO.Ret false, IO.mkchan rest (tx ++ ["st "%string])) /\
  PI.is_moving [1] (IO.mkchan ("0 1 1"%string :: rest) tx) =
    (IO.Ret true, IO.mkchan rest (tx ++ [("1 " ++ String "005" EmptyString)%string])) /\
  PI.is_moving [1] (IO.mkchan ("0 1 0"%string :: rest) tx) =
    (IO.Ret false, IO.mkchan rest (tx ++ [("1 " ++ String "005" EmptyString)%string])) /\
  (forall d, Tic.is_moving d = false).
Proof.
  repeat split; vm_compute; reflexivity.
Qed.

(** C7 counterexample: [Tic.is_moving] is the same, [False], for a device
    still travelling to its target and for one at rest on it. *)
Lemma Tic_is_moving_constant :
  Tic.is_moving (Tic.mkdevice 0 100) = Tic.is_moving (Tic.mkdevice 100 100) /\
  Tic.position (Tic.mkdevice 0 100) <> [PyInt (Tic.get_target_position (Tic.mkdevice 0 100))] /\
  Tic.is_moving (Tic.mkdevice 0 100) = false.
Proof.
  split; [reflexivity | split; [discriminate | reflexivity]].
Qed.

(** * Further properties of the code *)

Lemma Py_lt_self (x : pyval) : Py.is_number x = true -> Py.lt x x = Ok false.
Proof.
  destruct x as [|z|f]; simpl; try discriminate; intros _.
  - unfold Py.lt, Py.cmp. simpl. rewrite Z.compare_refl. reflexivity.
  - unfold Py.lt, Py.cmp. simpl.
    destruct f as [s|s| |s m e]; simpl; try reflexivity.
    + destruct s; reflexivity.
    + destruct s; simpl; rewrite Z.compare_refl, Pos.compare_cont_refl; reflexivity.
Qed.

Lemma Py_gt_self (x : pyval) : Py.is_number x = true -> Py.gt x x = Ok false.
Proof.
  destruct x as [|z|f]; simpl; try discriminate; intros _.
  - unfold Py.gt, Py.cmp. simpl. rewrite Z.compare_refl. reflexivity.
  - unfold Py.gt, Py.cmp. simpl.
    destruct f as [s|s| |s m e]; simpl; try reflexivity.
    + destruct s; reflexivity.
    + destruct s; simpl; rewrite Z.compare_refl, Pos.compare_cont_refl; reflexivity.
Qed.

Lemma Stage_range_loop_ok (i : nat) (vs mins maxs : Vector.vec) :
  Forall (fun x => Py.is_number x = true) vs ->
  length mins = length vs -> length maxs = length vs ->
  ~ (exists k x m, nth_error vs k = Some x /\
       ((nth_error mins k = Some m /\ m <> PyNone /\ Py.lt x m = Ok true) \/
        (nth_error maxs k = Some m /\ m <> PyNone /\ Py.gt x m = Ok true))) ->
  Stage.range_loop i vs mins maxs = Ok tt.
Proof.
  revert mins maxs i.
  induction vs as [|x vs IH]; intros mins maxs i Hnum Hl1 Hl2 Hno.
  - destruct mins, maxs; reflexivity.
  - destruct mins as [|mn mins]; [discriminate|].
    destruct maxs as [|mx maxs]; [discriminate|].
    inversion Hnum as [|? ? Hx Hnum']; subst.
    simpl in Hl1, Hl2. injection Hl1 as Hl1. injection Hl2 as Hl2.
    assert (Hsmall : exists b, match mn with PyNone => Ok false | _ => Py.lt x mn end = Ok b).
    { destruct mn; [eexists; reflexivity| |]; apply Py_lt_numbers; auto. }
    assert (Hgreat : exists b, match mx with PyNone => Ok false | _ => Py.gt x mx end = Ok b).
    { destruct mx; [eexists; reflexivity| |]; apply Py_gt_numbers; auto. }
    destruct Hsmall as [bs Hs]. destruct Hgreat as [bg Hg].
    simpl. rewrite Hs. simpl.
    destruct bs.
    { exfalso. apply Hno. exists 0%nat, x, mn. split; [reflexivity|]. left.
      destruct mn; [discriminate | |]; repeat split; try discriminate; exact Hs. }
    rewrite Hg. simpl.
    destruct bg.
    { exfalso. apply Hno. exists 0%nat, x, mx. split; [reflexivity|]. right.
      destruct mx; [discriminate | |]; repeat split; try discriminate; exact Hg. }
    apply IH; auto.
    intros (k & y & m & Hk & Hv). apply Hno. exists (S k), y, m. split; [exact Hk | exact Hv].
Qed.

Lemma Stage_check_range_ok (st : Stage.stage) (v : Vector.vec) :
  length v = Stage.num_axis st -> Stage.bounds_fit st ->
  Forall (fun x => Py.is_number x = true) v ->
  (~ exists i, Stage.violates st v i) -> Stage.check_range st v = Ok tt.
Proof.
  intros Hlen Hfit Hnum Hno. destruct Hfit as [Hfmin Hfmax].
    unfold Stage.check_range.
    assert (Hself : forall k x m, nth_error v k = Some x -> nth_error v k = Some m ->
                      Py.lt x m <> Ok true /\ Py.gt x m <> Ok true).
    { intros k x m Hx Hm. rewrite Hx in Hm. injection Hm as <-.
      pose proof (proj1 (Forall_forall _ _) Hnum x (nth_error_In _ _ Hx)) as Hxn.
      rewrite Py_lt_self, Py_gt_self by assumption. split; discriminate. }
    assert (Hgen : forall A B, length A = length v -> length B = length v ->
      ~ (exists k x m, nth_error v k = Some x /\
           ((nth_error A k = Some m /\ m <> PyNone /\ Py.lt x m = Ok true) \/
            (nth_error B k = Some m /\ m <> PyNone /\ Py.gt x m = Ok true))) ->
      (if negb (Nat.eqb (length A) (length v)) || negb (Nat.eqb (length B) (length v))
       then Err (ValueError MsgInvalidBoundsDimension)
       else Stage.range_loop 0 v A B) = Ok tt).
    { intros A B HA HB HAB. rewrite HA, HB, Nat.eqb_refl. apply Stage_range_loop_ok; auto. }
    destruct (Stage.minimums st) as [ms|] eqn:Hm;
    destruct (Stage.maximums st) as [Ms|] eqn:HM; try reflexivity;
      apply Hgen;
      try (rewrite ?(Hfmin ms eq_refl), ?(Hfmax Ms eq_refl); auto);
      intros (k & x & m & Hk & [[Hmk [Hn Hlt]] | [Hmk [Hn Hgt]]]);
      try (apply Hno; exists k, x; split; [exact Hk|];
           first [ solve [left; exists ms, m; rewrite Hm; repeat split; auto]
                 | solve [right; exists Ms, m; rewrite HM; repeat split; auto] ]);
      try (destruct (Hself k x m Hk Hmk); contradiction).
Qed.

(** [Stage.check_range]: for a value with one number per axis and bounds
    of the dimension the setters enforce, the check returns normally
    exactly when no component is below its minimum or above its maximum
    ([None] entries bound nothing). *)
Theorem Stage_check_range_ok_iff (st : Stage.stage) (v : Vector.vec) :
  length v = Stage.num_axis st -> Stage.bounds_fit st ->
  Forall (fun x => Py.is_number x = true) v ->
  (Stage.check_range st v = Ok tt <-> ~ exists i, Stage.violates st v i).
Proof.
  intros Hlen Hfit Hnum. split.
  - intros Hok Hv.
    destruct (Stage_check_range_violation st v Hlen Hfit Hnum Hv) as [e [_ He]].
    congruence.
  - apply Stage_check_range_ok; assumption.
Qed.

Lemma Vector_index_some (v : Vector.vec) (key : Z) (i : nat) :
  Vector.index v key = Some i -> (i < length v)%nat.
Proof.
  unfold Vector.index. destruct (key <? 0); destruct (_ && _) eqn:E; try discriminate;
  intros H; injection H as <-; apply andb_true_iff in E as [E1 E2];
  apply Z.leb_le in E1; apply Z.ltb_lt in E2; lia.
Qed.

(** [Vector.__getitem__] with an integer key raises ([IndexError])
    exactly when the key is outside [-len, len). *)
Theorem Vector_getitem_none_iff (v : Vector.vec) (key : Z) :
  Vector.getitem v key = None <->
  (key < - Z.of_nat (length v) \/ Z.of_nat (length v) <= key).
Proof.
  unfold Vector.getitem.
  destruct (Vector.index v key) as [i|] eqn:Hi.
  - pose proof (Vector_index_some v key i Hi) as Hlt.
    split; [intros H; apply nth_error_None in H; lia|].
    unfold Vector.index in Hi.
    destruct (key <? 0) eqn:Hk; destruct (_ && _) eqn:E; try discriminate;
      apply andb_true_iff in E as [E1 E2]; apply Z.leb_le in E1; apply Z.ltb_lt in E2;
      try apply Z.ltb_lt in Hk; try apply Z.ltb_ge in Hk; lia.
  - split; [|reflexivity]. intros _.
    unfold Vector.index in Hi.
    destruct (key <? 0) eqn:Hk; destruct (_ && _) eqn:E; try discriminate;
      apply andb_false_iff in E as [E|E]; try apply Z.leb_gt in E; try apply Z.ltb_ge in E;
      try apply Z.ltb_lt in Hk; try apply Z.ltb_ge in Hk; lia.
Qed.

(** [Vector.__setitem__]: outside [-len, len) it raises; inside, the
    length is kept, reading the same key gives the new value, and every
    key that designates another component reads as before. *)
Theorem Vector_setitem_getitem (v : Vector.vec) (key : Z) (value : pyval) :
  (Vector.getitem v key = None -> Vector.setitem v key value = None) /\
  (Vector.getitem v key <> None ->
   exists v', Vector.setitem v key value = Some v' /\
     length v' = length v /\ Vector.getitem v' key = Some value /\
     forall key', Vector.index v key' <> Vector.index v key ->
                  Vector.getitem v' key' = Vector.getitem v key').
Proof.
  unfold Vector.getitem, Vector.setitem.
  destruct (Vector.index v key) as [i|] eqn:Hi.
  2:{ split; [reflexivity|]. intros H; exfalso; apply H; reflexivity. }
  pose proof (Vector_index_some v key i Hi) as Hlt.
  assert (Hlen : length (firstn i v ++ value :: skipn (S i) v) = length v).
  { rewrite length_app, length_firstn, Nat.min_l by lia. cbn [length].
    rewrite length_skipn. lia. }
  assert (Hidx : forall k, Vector.index (firstn i v ++ value :: skipn (S i) v) k =
                           Vector.index v k).
  { intros k. unfold Vector.index. now rewrite Hlen. }
  split.
  { intros H. apply nth_error_None in H. lia. }
  intros _. eexists; split; [reflexivity|]. split; [exact Hlen|].
  rewrite !Hidx, Hi. split.
  - rewrite nth_error_app2; rewrite length_firstn, Nat.min_l by lia; [|lia].
    now rewrite Nat.sub_diag.
  - intros key' Hne. rewrite Hidx. destruct (Vector.index v key') as [j|] eqn:Hj; [|reflexivity].
    assert (j <> i) by congruence.
    pose proof (Vector_index_some v key' j Hj).
    destruct (Nat.lt_ge_cases j i).
    + rewrite nth_error_app1 by (rewrite length_firstn; lia).
      rewrite nth_error_firstn. destruct (Nat.ltb_spec j i); [reflexivity|lia].
    + rewrite nth_error_app2 by (rewrite length_firstn; lia).
      rewrite length_firstn, Nat.min_l by lia.
      destruct (j - i)%nat as [|d] eqn:Hd; [lia|]. cbn [nth_error].
      rewrite nth_error_skipn. f_equal. lia.
Qed.

(** [Vector.__getitem__] with a negative key [-k], [1 <= k <= len],
    returns the component [len - k], counting from the end. *)
Theorem Vector_getitem_negative (v : Vector.vec) (k : nat) :
  (1 <= k <= length v)%nat ->
  Vector.getitem v (- Z.of_nat k) = nth_error v (length v - k).
Proof.
  intros Hk. unfold Vector.getitem, Vector.index.
  replace (- Z.of_nat k <? 0) with true by (symmetry; apply Z.ltb_lt; lia).
  replace ((0 <=? - Z.of_nat k + Z.of_nat (length v)) &&
           (- Z.of_nat k + Z.of_nat (length v) <? Z.of_nat (length v))) with true
    by (symmetry; apply andb_true_iff; split; [apply Z.leb_le | apply Z.ltb_lt]; lia).
  f_equal. lia.
Qed.

Lemma Vector_index_nat (v : Vector.vec) (i : nat) :
  (i < length v)%nat -> Vector.index v (Z.of_nat i) = Some i.
Proof.
  intros H. unfold Vector.index.
  replace (Z.of_nat i <? 0) with false by (symmetry; apply Z.ltb_ge; lia).
  replace ((0 <=? Z.of_nat i) && (Z.of_nat i <? Z.of_nat (length v))) with true
    by (symmetry; apply andb_true_iff; split; [apply Z.leb_le | apply Z.ltb_lt]; lia).
  now rewrite Nat2Z.id.
Qed.

Lemma Vector_index_0 (v : Vector.vec) :
  (1 <= length v)%nat -> Vector.index v 0 = Some 0%nat.
Proof. intros H. exact (Vector_index_nat v 0 H). Qed.

Lemma Vector_index_1 (v : Vector.vec) :
  (2 <= length v)%nat -> Vector.index v 1 = Some 1%nat.
Proof. intros H. exact (Vector_index_nat v 1 H). Qed.

(** The [xy] setter on vectors of at least two components: it sets the
    first two components so that the [xy] getter returns the first two of
    the value, and keeps the length and the other components. *)
Theorem Vector_xy_set_roundtrip (self value : Vector.vec) :
  (2 <= length self)%nat -> (2 <= length value)%nat ->
  exists s', Vector.xy_set self value = (s', false) /\
    Vector.xy s' = Vector.xy value /\ length s' = length self /\
    skipn 2 s' = skipn 2 self.
Proof.
  intros Hs Hv.
  destruct self as [|a0 [|a1 rest]]; simpl in Hs; try lia.
  destruct value as [|b0 [|b1 vrest]]; simpl in Hv; try lia.
  unfold Vector.xy_set, Vector.xy, Vector.getitem, Vector.setitem.
  repeat first [rewrite Vector_index_0 by (simpl; lia)
               | rewrite Vector_index_1 by (simpl; lia) | progress simpl].
  eexists; split; [reflexivity|].
  repeat first [rewrite Vector_index_0 by (simpl; lia)
               | rewrite Vector_index_1 by (simpl; lia) | progress simpl].
  auto.
Qed.

(** The [xy] setter on a one-component vector overwrites [x] with the
    value's first component and then raises [IndexError] on [y]: the
    vector is left modified. *)
Theorem Vector_xy_set_partial (a : pyval) (value : Vector.vec) :
  (2 <= length value)%nat ->
  Vector.xy_set [a] value = (firstn 1 value, true).
Proof.
  intros Hv. destruct value as [|b0 [|b1 vrest]]; simpl in Hv; try lia.
  unfold Vector.xy_set, Vector.getitem, Vector.setitem.
  repeat first [rewrite Vector_index_0 by (simpl; lia)
               | rewrite Vector_index_1 by (simpl; lia) | progress simpl].
  reflexivity.
Qed.

(** [Vector.__truediv__] by the int [0] or by a float zero of either sign
    raises [ZeroDivisionError], for every vector, the empty one included. *)
Theorem Vector_truediv_zero (v : Vector.vec) (s : bool) :
  Vector.truediv v (Vector.Scalar (PyInt 0)) = Err ZeroDivisionError /\
  Vector.truediv v (Vector.Scalar (PyFloat (S754_zero s))) = Err ZeroDivisionError.
Proof. split; reflexivity. Qed.

Lemma Vector_map2_length (op : pyval -> pyval -> res pyval) (xs ys r : Vector.vec) :
  length xs = length ys -> Vector.map2 op xs ys = Ok r -> length r = length xs.
Proof.
  revert ys r. induction xs as [|x xs IH]; intros [|y ys] r Hl H; simpl in *;
    try discriminate.
  - injection H as <-. reflexivity.
  - injection Hl as Hl. destruct (op x y) as [z|e]; [|discriminate]. simpl in H.
    destruct (Vector.map2 op xs ys) as [zs|e] eqn:E; [|discriminate].
    simpl in H. injection H as <-. simpl. f_equal. eapply IH; eauto.
Qed.

Lemma Vector_map1_length (op : pyval -> res pyval) (xs r : Vector.vec) :
  Vector.map1 op xs = Ok r -> length r = length xs.
Proof.
  revert r. induction xs as [|x xs IH]; intros r H; simpl in *.
  - injection H as <-. reflexivity.
  - destruct (op x) as [z|e]; [|discriminate]. simpl in H.
    destruct (Vector.map1 op xs) as [zs|e] eqn:E; [|discriminate].
    simpl in H. injection H as <-. simpl. f_equal. eapply IH; eauto.
Qed.

(** The vector returned by [__add__], [__sub__], [__mul__] or
    [__truediv__] has the length of the left operand. *)
Theorem Vector_ops_keep_length (self : Vector.vec) (other : Vector.vec)
    (o : Vector.operand) (r : Vector.vec) :
  (Vector.add self other = Ok r -> length r = length self) /\
  (Vector.sub self other = Ok r -> length r = length self) /\
  (Vector.mul self o = Ok r -> length r = length self) /\
  (Vector.truediv self o = Ok r -> length r = length self).
Proof.
  assert (Hmul : forall o, Vector.mul self o = Ok r -> length r = length self).
  { intros [x|u]; unfold Vector.mul.
    - destruct (Py.is_number x); [|discriminate]. apply Vector_map1_length.
    - destruct (Nat.eqb (length u) (length self)) eqn:E; [|discriminate]; simpl.
      apply Nat.eqb_eq in E. apply Vector_map2_length. auto. }
  assert (Htd : Vector.truediv self o = Ok r -> length r = length self).
  { unfold Vector.truediv. destruct o as [x|u]; [|discriminate].
    destruct (Py.is_number x); [|discriminate].
    destruct (Py.float_truediv F64.one x) as [q|e]; [|discriminate]. apply Hmul. }
  unfold Vector.add, Vector.sub.
  destruct (Nat.eqb (length other) (length self)) eqn:E; simpl;
    [apply Nat.eqb_eq in E | repeat split; try apply Hmul; auto; intros H; discriminate H].
  repeat split; try apply Hmul; auto; apply Vector_map2_length; auto.
Qed.

(** [Vector.__eq__] on vectors of ints is equality of the component lists. *)
Theorem Vector_eqb_ints (a b : Vector.vec) :
  Vector.all_ints a -> Vector.all_ints b -> (Vector.eqb a b = true <-> a = b).
Proof.
  intros Ha Hb. split.
  - unfold Vector.eqb. intros H. apply andb_true_iff in H as [Hl H].
    revert b Hb Hl H. induction Ha as [|x a [zx ->] Ha IH]; intros b Hb Hl H.
    + destruct b; [reflexivity|discriminate].
    + destruct b as [|y b]; [discriminate|].
      inversion Hb as [|? ? [zy ->] Hb']; subst.
      simpl in H. apply andb_true_iff in H as [Hxy H].
      unfold Py.eq, Py.cmp in Hxy.
      destruct (Z.compare zx zy) eqn:C; try discriminate.
      apply Z.compare_eq in C. subst. f_equal. apply IH; auto.
  - intros <-. unfold Vector.eqb. rewrite Nat.eqb_refl. simpl.
    now apply Vector_all_eq_refl_ints.
Qed.

(** The [minimums] and [maximums] setters: a vector of the wrong dimension
    is refused with the [check_dimension] error; a stored bound always has
    the stage's dimension, and each setter changes only its own bound
    ([None] removes it). *)
Theorem Stage_set_bounds (st st' : Stage.stage) (value : option Vector.vec) :
  Stage.bounds_fit st ->
  (forall v, value = Some v -> length v <> Stage.num_axis st ->
     Stage.set_minimums st value =
       Err (ValueError (MsgIncorrectDimension (length v) (Stage.num_axis st))) /\
     Stage.set_maximums st value =
       Err (ValueError (MsgIncorrectDimension (length v) (Stage.num_axis st)))) /\
  (Stage.set_minimums st value = Ok st' ->
     Stage.bounds_fit st' /\ Stage.num_axis st' = Stage.num_axis st /\
     Stage.minimums st' = value /\ Stage.maximums st' = Stage.maximums st) /\
  (Stage.set_maximums st value = Ok st' ->
     Stage.bounds_fit st' /\ Stage.num_axis st' = Stage.num_axis st /\
     Stage.minimums st' = Stage.minimums st /\ Stage.maximums st' = value).
Proof.
  intros [Hmin Hmax].
  unfold Stage.set_minimums, Stage.set_maximums, Stage.check_dimension.
  split; [|split].
  - intros v -> Hne. apply Nat.eqb_neq in Hne. rewrite Nat.eqb_sym, Hne. auto.
  - destruct value as [v|]; simpl.
    + destruct (Nat.eqb (Stage.num_axis st) (length v)) eqn:E; simpl; [|discriminate].
      apply Nat.eqb_eq in E. intros H; injection H as <-.
      repeat split; simpl; auto. intros m Hm; injection Hm as <-; auto.
    + intros H; injection H as <-. repeat split; simpl; auto; discriminate.
  - destruct value as [v|]; simpl.
    + destruct (Nat.eqb (Stage.num_axis st) (length v)) eqn:E; simpl; [|discriminate].
      apply Nat.eqb_eq in E. intros H; injection H as <-.
      repeat split; simpl; auto. intros m Hm; injection Hm as <-; auto.
    + intros H; injection H as <-. repeat split; simpl; auto; discriminate.
Qed.

(** [Stage.position] setter: for a value of the right dimension, made of
    numbers and within the bounds, the checks neither raise nor exchange
    anything with the device: the setter of a driver does exactly its own
    move. *)
Theorem Stage_position_set_valid {I : Type} (drv_move : Vector.vec -> IO.M I unit)
    (st : Stage.stage) (v : Vector.vec) :
  length v = Stage.num_axis st -> Stage.bounds_fit st ->
  Forall (fun x => Py.is_number x = true) v ->
  (~ exists i, Stage.violates st v i) ->
  Stage.position_set I drv_move st v = drv_move v.
Proof.
  intros Hlen Hfit Hnum Hno.
  unfold Stage.position_set, Stage.check_dimension.
  rewrite Hlen, Nat.eqb_refl. simpl.
  rewrite (Stage_check_range_ok st v Hlen Hfit Hnum Hno).
  reflexivity.
Qed.

Lemma Stage_wait_move_finished_S {I : Type} (is_moving : IO.M I bool)
    (wr : option (IO.M I unit)) (f : nat) :
  Stage.wait_move_finished I is_moving wr (S f) =
  (b <- is_moving ;;
   if b then
     match wr with
     | Some r => r ;;; Stage.wait_move_finished I is_moving wr f
     | None => Stage.wait_move_finished I is_moving wr f
     end
   else IO.ret tt).
Proof. reflexivity. Qed.

(** [Stage.wait_move_finished]: with a driver whose [is_moving] reads one
    answer per call, the loop polls until the first answer that is not
    moving, consumes exactly the answers up to it, and runs the
    [wait_routine] once per moving answer (never when there is none). *)
Theorem Stage_wait_move_finished_polls {I : Type} (answer : I -> bool)
    (is_moving : IO.M I bool) (wr : option (IO.M I unit)) (s : string) :
  (forall t rx tx, is_moving (IO.mkchan (t :: rx) tx) = (IO.Ret (answer t), IO.mkchan rx tx)) ->
  (forall r, wr = Some r -> forall rx tx, r (IO.mkchan rx tx) = (IO.Ret tt, IO.mkchan rx (tx ++ [s]))) ->
  forall ts t rest tx fuel,
    Forall (fun t => answer t = true) ts -> answer t = false ->
    Stage.wait_move_finished I is_moving wr (S (length ts) + fuel)
      (IO.mkchan (ts ++ t :: rest) tx) =
    (IO.Ret tt, IO.mkchan rest
       (tx ++ concat (repeat (match wr with Some _ => [s] | None => [] end) (length ts)))).
Proof.
  intros Hpoll Hr ts. induction ts as [|t0 ts IH]; intros t rest tx fuel Hts Ht.
  - simpl. unfold IO.bind. rewrite Hpoll, Ht. simpl. now rewrite app_nil_r.
  - inversion Hts as [|? ? Ht0 Hts']; subst.
    change (S (length (t0 :: ts)) + fuel)%nat with (S (S (length ts) + fuel)).
    change ((t0 :: ts) ++ t :: rest) with (t0 :: (ts ++ t :: rest)).
    rewrite Stage_wait_move_finished_S. unfold IO.bind at 1.
    rewrite Hpoll, Ht0.
    destruct wr as [r|].
    + unfold IO.bind. rewrite (Hr r eq_refl).
      rewrite (IH t rest (tx ++ [s]) fuel Hts' Ht). simpl. now rewrite <- app_assoc.
    + rewrite (IH t rest tx fuel Hts' Ht). reflexivity.
Qed.

(** [Stage.wait_move_finished] never returns while [is_moving] stays
    true, whatever the number of polls, when there is no [wait_routine]. *)
Theorem Stage_wait_move_finished_busy {I : Type} (is_moving : IO.M I bool) :
  (forall c, is_moving c = (IO.Ret true, c)) ->
  forall fuel c, fst (Stage.wait_move_finished I is_moving None fuel c) = IO.Hang.
Proof.
  intros Hbusy fuel. induction fuel as [|f IH]; intros c; [reflexivity|].
  simpl. unfold IO.bind. rewrite Hbusy. apply IH.
Qed.

Lemma opt_eqb_Z (a b : option Z) : Stage.opt_eqb Z.eqb a b = true <-> a = b.
Proof.
  destruct a, b; simpl; split; intros H; try discriminate; try reflexivity.
  - apply Z.eqb_eq in H; now subst.
  - injection H as ->; apply Z.eqb_refl.
Qed.

Lemma opt_eqb_string (a b : option string) : Stage.opt_eqb String.eqb a b = true <-> a = b.
Proof.
  destruct a, b; simpl; split; intros H; try discriminate; try reflexivity.
  - apply String.eqb_eq in H; now subst.
  - injection H as ->; apply String.eqb_refl.
Qed.

(** The selection test of [Stage.find_device]: with a serial number only
    the port's serial number counts (pid and vid are ignored); without one
    the port's pid and vid must both equal the requested ones, [None]
    matching only [None]. *)
Theorem Stage_port_selected_iff (pid vid : option Z) (sn : string) (p : Stage.port) :
  (Stage.port_selected pid vid None p = true <->
   Stage.port_pid p = pid /\ Stage.port_vid p = vid) /\
  (Stage.port_selected pid vid (Some sn) p = true <->
   Stage.port_serial_number p = Some sn).
Proof.
  unfold Stage.port_selected. split.
  - rewrite andb_true_iff, !opt_eqb_Z. tauto.
  - apply opt_eqb_string.
Qed.

Lemma filter_nil_iff {A} (f : A -> bool) (l : list A) :
  filter f l = [] <-> forall x, In x l -> f x = false.
Proof.
  induction l as [|a l IH]; simpl; [split; auto; intros _ x []|].
  destruct (f a) eqn:Ha; split; intros H.
  - discriminate.
  - rewrite (H a (or_introl eq_refl)) in Ha. discriminate.
  - intros x [<-|Hx]; [exact Ha|]. now apply IH.
  - apply IH. intros x Hx. apply H. now right.
Qed.

(** [Stage.find_device]: "No device found" exactly when no port is
    selected, "Multiple devices found" exactly when two or more are, and
    otherwise the device path of the only selected port. *)
Theorem Stage_find_device_outcome (ports : list Stage.port) (pid vid : option Z)
    (sn : option string) (d : string) :
  (Stage.find_device ports pid vid sn = Stage.NoDeviceFound <->
   forall p, In p ports -> Stage.port_selected pid vid sn p = false) /\
  (Stage.find_device ports pid vid sn = Stage.Found d ->
   exists p, In p ports /\ Stage.port_selected pid vid sn p = true /\
     Stage.port_device p = d /\
     forall q, In q ports -> Stage.port_selected pid vid sn q = true -> q = p) /\
  (Stage.find_device ports pid vid sn = Stage.MultipleDevicesFound <->
   (2 <= length (filter (Stage.port_selected pid vid sn) ports))%nat).
Proof.
  unfold Stage.find_device.
  pose proof (filter_nil_iff (Stage.port_selected pid vid sn) ports) as Hnil.
  pose proof (fun x => filter_In (Stage.port_selected pid vid sn) x ports) as Hin.
  destruct (filter (Stage.port_selected pid vid sn) ports) as [|p [|p' l]] eqn:Hf.
  - split; [split; [intros _; apply Hnil; reflexivity | reflexivity]|].
    split; [discriminate|]. simpl. split; [discriminate | lia].
  - split; [split; [discriminate|] |].
    { intros H. assert (Hp : In p [p]) by now left.
      apply Hin in Hp as [Hp Hs]. rewrite (H p Hp) in Hs. discriminate. }
    split; [|simpl; split; [discriminate|lia]].
    intros Hd; injection Hd as <-.
    assert (Hp : In p [p]) by now left. apply Hin in Hp as [Hp Hs].
    exists p. repeat split; auto.
    intros q Hq Hsq. assert (Hq' : In q [p]) by (apply Hin; auto).
    destruct Hq' as [->|[]]; reflexivity.
  - split; [split; [discriminate|]|].
    { intros H. assert (Hp : In p (p :: p' :: l)) by now left.
      apply Hin in Hp as [Hp Hs]. rewrite (H p Hp) in Hs. discriminate. }
    split; [discriminate|]. simpl. split; [intros _; lia | reflexivity].
Qed.

(** [Stage.find_device] called with no criterion selects only the ports
    that have neither a pid nor a vid: when every port has one of them,
    the result is "No device found". *)
Theorem Stage_find_device_no_criteria (ports : list Stage.port) :
  (forall p, In p ports -> Stage.port_pid p <> None \/ Stage.port_vid p <> None) ->
  Stage.find_device ports None None None = Stage.NoDeviceFound.
Proof.
  intros H. unfold Stage.find_device.
  replace (filter (Stage.port_selected None None None) ports) with (@nil Stage.port);
    [reflexivity|].
  symmetry. apply filter_nil_iff. intros p Hp.
  unfold Stage.port_selected.
  destruct (H p Hp) as [Hn|Hn];
    destruct (Stage.port_pid p), (Stage.port_vid p); simpl; auto; congruence.
Qed.

Lemma CNC_receive_lines_loop_frame (until : string) (pre : list string) (t : string)
    (rest tx : list string) (acc : list string) (fuel : nat) :
  Forall (fun l => CNC.strip_line l <> until) pre -> CNC.strip_line t = until ->
  (length pre < fuel)%nat ->
  CNC.receive_lines_loop fuel until acc (IO.mkchan (pre ++ t :: rest) tx) =
    (IO.Ret (acc ++ filter (fun l => negb (Nat.eqb (String.length l) 0)) (map CNC.strip_line pre)),
     IO.mkchan rest tx).
Proof.
  revert acc fuel. induction pre as [|l pre IH]; intros acc fuel Hpre Ht Hf;
    (destruct fuel as [|f]; [simpl in Hf; lia|]).
  - simpl. unfold IO.bind, IO.read, IO.ret. cbn [IO.rx IO.tx].
    rewrite Ht, String.eqb_refl, app_nil_r. reflexivity.
  - inversion Hpre as [|? ? Hl Hpre']; subst.
    simpl. unfold IO.bind at 1, IO.read. cbn [IO.rx IO.tx].
    apply String.eqb_neq in Hl. rewrite Hl.
    rewrite IH by (auto; simpl in Hf; lia).
    destruct (Nat.eqb (String.length (CNC.strip_line l)) 0); simpl;
      [reflexivity | now rewrite <- app_assoc].
Qed.

Lemma CNC_receive_lines_loop_hang (until : string) (rx tx acc : list string) (fuel : nat) :
  until <> EmptyString ->
  Forall (fun l => CNC.strip_line l <> until) rx ->
  fst (CNC.receive_lines_loop fuel until acc (IO.mkchan rx tx)) = IO.Hang.
Proof.
  intros Hu. revert rx acc. induction fuel as [|f IH]; intros rx acc Hrx; [reflexivity|].
  destruct rx as [|l rx].
  - simpl. unfold IO.bind, IO.read. cbn [IO.rx IO.tx].
    destruct (String.eqb EmptyString until) eqn:E.
    + apply String.eqb_eq in E. congruence.
    + apply IH. constructor.
  - inversion Hrx as [|? ? Hl Hrx']; subst.
    simpl. unfold IO.bind at 1, IO.read. cbn [IO.rx IO.tx].
    apply String.eqb_neq in Hl. rewrite Hl. apply IH; auto.
Qed.

(** [CNCRouter.receive_lines]: it returns the stripped non-empty lines
    received before the first line that strips to [until], which is
    consumed and not returned; while no such line arrives (and [until] is
    not empty) it does not return. *)
Theorem CNC_receive_lines_until (until : string) :
  (forall pre t rest tx,
     Forall (fun l => CNC.strip_line l <> until) pre -> CNC.strip_line t = until ->
     CNC.receive_lines until (IO.mkchan (pre ++ t :: rest) tx) =
       (IO.Ret (filter (fun l => negb (Nat.eqb (String.length l) 0)) (map CNC.strip_line pre)),
        IO.mkchan rest tx)) /\
  (until <> EmptyString -> forall rx tx,
     Forall (fun l => CNC.strip_line l <> until) rx ->
     fst (CNC.receive_lines until (IO.mkchan rx tx)) = IO.Hang).
Proof.
  split.
  - intros pre t rest tx Hpre Ht. unfold CNC.receive_lines, IO.with_fuel. cbn [IO.rx].
    rewrite CNC_receive_lines_loop_frame; auto. rewrite length_app; simpl; lia.
  - intros Hu rx tx Hrx. unfold CNC.receive_lines, IO.with_fuel.
    apply CNC_receive_lines_loop_hang; auto.
Qed.

Lemma existsb_filter_map {A B} (f g : B -> bool) (h : A -> B) (l : list A) :
  (forall x, g (h x) = false -> f (h x) = false) ->
  existsb f (filter g (map h l)) = existsb (fun x => f (h x)) l.
Proof.
  intros H. induction l as [|a l IH]; [reflexivity|].
  cbn [map filter existsb]. destruct (g (h a)) eqn:E.
  - cbn [existsb]. now rewrite IH.
  - rewrite (H a E), IH. reflexivity.
Qed.

(** [CNCRouter.unlock] sends [$X] and returns whether one of the lines
    before the ["ok"] is the message [[MSG:Caution: Unlocked]], consuming
    the lines up to that ["ok"]. *)
Theorem CNC_unlock_reply (pre : list string) (t : string) (rest tx : list string) :
  Forall (fun l => CNC.strip_line l <> "ok"%string) pre -> CNC.strip_line t = "ok"%string ->
  CNC.unlock (IO.mkchan (pre ++ t :: rest) tx) =
    (IO.Ret (existsb (fun l => String.eqb "[MSG:Caution: Unlocked]" (CNC.strip_line l)) pre),
     IO.mkchan rest (tx ++ [("$X" ++ String "010" EmptyString)%string])).
Proof.
  intros Hpre Ht. unfold CNC.unlock, CNC.send, IO.bind at 1, IO.write. cbn [IO.rx IO.tx].
  unfold IO.bind, CNC.receive_lines, IO.with_fuel. cbn [IO.rx].
  rewrite CNC_receive_lines_loop_frame; auto; [|rewrite length_app; simpl; lia].
  unfold IO.ret. cbn [app]. rewrite existsb_filter_map; [reflexivity|].
  intros l Hl. apply negb_false_iff, Nat.eqb_eq in Hl.
  destruct (CNC.strip_line l); [reflexivity | discriminate].
Qed.

Lemma CNC_receive_cons (t : string) (rx tx : list string) :
  CNC.receive (IO.mkchan (t :: rx) tx) = (IO.Ret t, IO.mkchan rx tx).
Proof. reflexivity. Qed.

Lemma CNC_receive_nil (tx : list string) :
  CNC.receive (IO.mkchan [] tx) = (IO.Ret EmptyString, IO.mkchan [] tx).
Proof. reflexivity. Qed.

Lemma CNC_skip_ok_S (f : nat) (status : string) :
  CNC.skip_ok (S f) status =
  if String.eqb status "ok" then (s <- CNC.receive ;; CNC.skip_ok f s) else IO.ret status.
Proof. reflexivity. Qed.

Lemma CNC_skip_ok_frame (j : nat) (r : string) (rest tx : list string) (fuel : nat) :
  String.eqb r "ok" = false -> (S j < fuel)%nat ->
  CNC.skip_ok fuel "ok" (IO.mkchan (repeat "ok"%string j ++ r :: rest) tx) =
    (IO.Ret r, IO.mkchan rest tx).
Proof.
  revert fuel. induction j as [|j IH]; intros fuel Hr Hf;
    (destruct fuel as [|f]; [lia |]).
  - rewrite CNC_skip_ok_S. cbn [String.eqb Ascii.eqb Bool.eqb andb repeat app].
    unfold IO.bind. rewrite CNC_receive_cons.
    destruct f as [|f]; [lia|]. rewrite CNC_skip_ok_S, Hr. reflexivity.
  - rewrite CNC_skip_ok_S. cbn [String.eqb Ascii.eqb Bool.eqb andb repeat app].
    unfold IO.bind at 1. rewrite CNC_receive_cons.
    apply IH; [exact Hr | lia].
Qed.

Lemma Str_startswith_char (s : string) (a : ascii) :
  Str.startswith s (String a EmptyString) = true -> exists s', s = String a s'.
Proof.
  unfold Str.startswith. destruct s as [|c s']; cbn [String.prefix]; [discriminate|].
  destruct (Ascii.ascii_dec a c) as [<-|]; [eauto | discriminate].
Qed.

Ltac cnc_unfold :=
  cbv [CNC.get_current_status CNC.send CNC.receive IO.bind IO.ret IO.write IO.read
       IO.lift IO.raise IO.with_fuel String.eqb Ascii.eqb Bool.eqb Str.startswith
       negb andb orb String.append IO.rx IO.tx].

(** [CNCRouter.get_current_status]: after an optional empty answer (which
    makes it send [?] a second time) and any number of ["ok"] lines, a
    [<...>] report is parsed and returned. *)
Theorem CNC_get_current_status_report (e : bool) (k : nat) (r : string)
    (p : CNCStatus * CNC.dict) (rest tx : list string) :
  Str.startswith r "<" = true -> Str.endswith r ">" = true ->
  CNC.parse_report r = Ok p ->
  CNC.get_current_status
    (IO.mkchan ((if e then [EmptyString] else []) ++ repeat "ok"%string k ++ r :: rest) tx) =
  (IO.Ret (Some p), IO.mkchan rest (tx ++ repeat "?"%string (if e then 2 else 1))).
Proof.
  intros Hs He Hp.
  destruct (Str_startswith_char r "<" Hs) as [r' ->].
  assert (Hal : String.prefix "ALARM:1" (String "<" r') = false) by reflexivity.
  assert (Hlt : String.prefix "<" (String "<" r') = true) by (destruct r'; reflexivity).
  destruct e, k as [|j]; cbn [repeat app]; cnc_unfold.
  - rewrite CNC_skip_ok_S. cbv [String.eqb Ascii.eqb Bool.eqb IO.ret].
    rewrite Hal, Hlt, He, Hp, <- ?app_assoc. reflexivity.
  - rewrite CNC_skip_ok_frame; [|reflexivity | rewrite ?length_app, ?repeat_length; simpl; lia].
    rewrite Hal, Hlt, He, Hp, <- ?app_assoc. reflexivity.
  - rewrite CNC_skip_ok_S. cbv [String.eqb Ascii.eqb Bool.eqb IO.ret].
    rewrite Hal, Hlt, He, Hp, <- ?app_assoc. reflexivity.
  - rewrite CNC_skip_ok_frame; [|reflexivity | rewrite ?length_app, ?repeat_length; simpl; lia].
    rewrite Hal, Hlt, He, Hp, <- ?app_assoc. reflexivity.
Qed.

(** [CNCRouter.get_current_status] returns [None] for an answer that is
    neither ["ok"], an alarm nor a [<...>] report, and also when the retry
    after an empty answer is empty again (the read timed out twice). *)
Theorem CNC_get_current_status_none :
  (forall (r : string) (rest tx : list string),
     r <> EmptyString -> r <> "ok"%string -> Str.startswith r "ALARM:1" = false ->
     Str.startswith r "<" && Str.endswith r ">" = false ->
     CNC.get_current_status (IO.mkchan (r :: rest) tx) =
       (IO.Ret None, IO.mkchan rest (tx ++ ["?"%string]))) /\
  (forall tx : list string,
     CNC.get_current_status (IO.mkchan [] tx) =
       (IO.Ret None, IO.mkchan [] (tx ++ ["?"%string; "?"%string]))) /\
  (forall rest tx : list string,
     CNC.get_current_status (IO.mkchan (EmptyString :: EmptyString :: rest) tx) =
       (IO.Ret None, IO.mkchan rest (tx ++ ["?"%string; "?"%string]))).
Proof.
  split; [|split].
  - intros r rest tx Hne Hok Hal Hfr.
    destruct r as [|c r']; [congruence|]. apply String.eqb_neq in Hok.
    unfold Str.startswith in Hal, Hfr.
    cnc_unfold. rewrite CNC_skip_ok_S. rewrite Hok.
    cbv [IO.ret]. rewrite Hal.
    destruct (String.prefix "<" (String c r')); [|reflexivity].
    destruct (Str.endswith (String c r') ">"); [discriminate | reflexivity].
  - intros tx. cnc_unfold. rewrite CNC_skip_ok_S. cbv [String.eqb IO.ret].
    rewrite <- app_assoc. reflexivity.
  - intros rest tx. cnc_unfold. rewrite CNC_skip_ok_S. cbv [String.eqb IO.ret].
    rewrite <- app_assoc. reflexivity.
Qed.

Lemma M3FS_bytes_be_length (n : nat) (u : Z) : length (M3FS.bytes_be n u) = n.
Proof.
  revert u; induction n as [|k IH]; intros u; [reflexivity|].
  simpl. rewrite length_app, IH. simpl. lia.
Qed.

Lemma M3FS_bytes_be_range (n : nat) (u : Z) :
  Forall (fun x => 0 <= x < 256) (M3FS.bytes_be n u).
Proof.
  revert u; induction n as [|k IH]; intros u; [constructor|].
  simpl. apply Forall_app; split; [apply IH|].
  constructor; [apply Z.mod_pos_bound; lia|constructor].
Qed.

Lemma M3FS_bytes_be_value (n : nat) (u : Z) :
  fold_left (fun acc x => acc * 256 + x) (M3FS.bytes_be n u) 0 = u mod 256 ^ Z.of_nat n.
Proof.
  revert u; induction n as [|k IH]; intros u.
  - simpl. rewrite Z.mod_1_r. reflexivity.
  - simpl M3FS.bytes_be. rewrite fold_left_app, IH. cbn [fold_left].
    rewrite Nat2Z.inj_succ, Z.pow_succ_r by lia.
    rewrite Z.rem_mul_r by (try apply Z.pow_pos_nonneg; lia). lia.
Qed.

Lemma M3FS_hex_char_digit (d : Z) :
  0 <= d < 16 ->
  hex_digit (M3FS.hex_char d) = Some d /\ Str.is_byte_space (M3FS.hex_char d) = false.
Proof.
  intros Hd.
  assert (d = 0 \/ d = 1 \/ d = 2 \/ d = 3 \/ d = 4 \/ d = 5 \/ d = 6 \/ d = 7 \/
          d = 8 \/ d = 9 \/ d = 10 \/ d = 11 \/ d = 12 \/ d = 13 \/ d = 14 \/ d = 15)
    as Hc by lia.
  repeat destruct Hc as [Hc|Hc]; subst d; split; reflexivity.
Qed.

Lemma M3FS_fromhex_hexlify (b : list Z) :
  Forall (fun x => 0 <= x < 256) b ->
  M3FS.fromhex (list_ascii_of_string (M3FS.hexlify b)) = Ok b.
Proof.
  induction b as [|x b IH]; intros Hb; [reflexivity|].
  inversion Hb as [|? ? Hx Hb']; subst.
  destruct (M3FS_hex_char_digit (x / 16)) as [H1 S1].
  { split; [apply Z.div_pos; lia| apply Z.div_lt_upper_bound; lia]. }
  destruct (M3FS_hex_char_digit (x mod 16)) as [H2 _].
  { apply Z.mod_pos_bound; lia. }
  simpl. rewrite S1, H1, H2, IH by assumption. simpl.
  f_equal. f_equal. pose proof (Z.div_mod x 16). lia.
Qed.

Lemma M3FS_hexlify_length (b : list Z) :
  String.length (M3FS.hexlify b) = (2 * length b)%nat.
Proof. induction b; simpl; [reflexivity|]. rewrite IHb. lia. Qed.

Lemma M3FS_target_data_in_range (n : Z) :
  - 2 ^ 31 <= n < 2 ^ 31 ->
  exists b, M3FS.to_bytes n 4 true = Ok b /\ M3FS.target_data n = Ok (M3FS.hexlify b) /\
    String.length (M3FS.hexlify b) = 8%nat /\
    M3FS.fromhex (list_ascii_of_string (M3FS.hexlify b)) = Ok b /\
    M3FS.from_bytes b true = n.
Proof.
  intros Hn.
  assert (Hto : M3FS.to_bytes n 4 true = Ok (M3FS.bytes_be 4 (n mod 2 ^ 32))).
  { unfold M3FS.to_bytes. simpl (8 * Z.of_nat 4). simpl (32 - 1).
    replace (Z.leb (- 2 ^ 31) n && Z.ltb n (2 ^ 31)) with true; [reflexivity|].
    symmetry. apply andb_true_intro. split; [apply Z.leb_le|apply Z.ltb_lt]; lia. }
  exists (M3FS.bytes_be 4 (n mod 2 ^ 32)).
  split; [exact Hto|]. split; [unfold M3FS.target_data; rewrite Hto; reflexivity|].
  split; [rewrite M3FS_hexlify_length, M3FS_bytes_be_length; reflexivity|].
  split; [apply M3FS_fromhex_hexlify, M3FS_bytes_be_range|].
  unfold M3FS.from_bytes. rewrite M3FS_bytes_be_value, M3FS_bytes_be_length.
  change (256 ^ Z.of_nat 4) with (2 ^ 32). rewrite Z.mod_mod by lia.
  change (8 * Z.of_nat 4 - 1) with 31. change (8 * Z.of_nat 4) with 32.
  cbn [andb].
  destruct (Z.leb_spec (2 ^ 31) (n mod 2 ^ 32)) as [H|H].
  - assert (n < 0).
    { destruct (Z.lt_ge_cases n 0); [assumption|]. rewrite Z.mod_small in H; lia. }
    rewrite (Z.mod_eq n (2 ^ 32)) by lia.
    assert (n / 2 ^ 32 = -1) as ->. { symmetry. apply Z.div_unique with (n + 2 ^ 32); lia. }
    lia.
  - assert (0 <= n).
    { destruct (Z.lt_ge_cases n 0); [|assumption].
      assert (n mod 2 ^ 32 = n + 2 ^ 32) by (symmetry; apply Z.mod_unique with (-1); lia). lia. }
    apply Z.mod_small. lia.
Qed.

(** The target sent by the [M3FS.position] setter: a target in the signed
    32-bit range is sent as eight hexadecimal digits that [bytes.fromhex]
    and [int.from_bytes(..., signed=True)] turn back into it; any other
    target raises [OverflowError]. *)
Theorem M3FS_target_data_roundtrip (n : Z) :
  (- 2 ^ 31 <= n < 2 ^ 31 ->
   exists b, M3FS.to_bytes n 4 true = Ok b /\ M3FS.target_data n = Ok (M3FS.hexlify b) /\
     String.length (M3FS.hexlify b) = 8%nat /\
     M3FS.fromhex (list_ascii_of_string (M3FS.hexlify b)) = Ok b /\
     M3FS.from_bytes b true = n) /\
  (M3FS.target_data n = Err OverflowError <-> n < - 2 ^ 31 \/ 2 ^ 31 <= n).
Proof.
  split; [apply M3FS_target_data_in_range|].
  unfold M3FS.target_data, M3FS.to_bytes. simpl (8 * Z.of_nat 4). simpl (32 - 1).
  destruct (Z.leb_spec (- 2 ^ 31) n), (Z.ltb_spec n (2 ^ 31)); simpl;
    split; intros H'; try discriminate; try reflexivity; lia.
Qed.

Lemma string_append_empty_r (s : string) : (s ++ EmptyString)%string = s.
Proof. induction s as [|a s IH]; simpl; [reflexivity | now rewrite IH]. Qed.

Lemma SMC_receive_bytes_S (f : nat) (acc : string) (b : Z) (l : list Z) (tx : list string) :
  SMC.receive_bytes (S f) acc (IO.mkchan (b :: l) tx) =
    (if Z.eqb (Z.land b 127) 10 then (IO.Ret acc, IO.mkchan l tx)
     else if Z.eqb (Z.land b 127) 13 || Z.eqb (Z.land b 127) 0
     then SMC.receive_bytes f acc (IO.mkchan l tx)
     else SMC.receive_bytes f
            (acc ++ String (ascii_of_nat (Z.to_nat (Z.land b 127))) EmptyString)%string
            (IO.mkchan l tx)).
Proof.
  cbn [SMC.receive_bytes]. cbv [IO.bind IO.read IO.rx IO.tx].
  destruct (Z.eqb (Z.land b 127) 10); [reflexivity|].
  destruct (Z.eqb (Z.land b 127) 13 || Z.eqb (Z.land b 127) 0); reflexivity.
Qed.

Lemma SMC_receive_bytes_frame (pre : list Z) (t : Z) (rest : list Z) (tx : list string)
    (acc : string) (fuel : nat) :
  Forall (fun b => Z.land b 127 <> 10) pre -> Z.land t 127 = 10 ->
  (length pre < fuel)%nat ->
  SMC.receive_bytes fuel acc (IO.mkchan (pre ++ t :: rest) tx) =
    (IO.Ret (acc ++ string_of_list_ascii
               (map (fun b => ascii_of_nat (Z.to_nat (Z.land b 127)))
                    (filter (fun b => negb (Z.eqb (Z.land b 127) 13 || Z.eqb (Z.land b 127) 0))
                            pre)))%string,
     IO.mkchan rest tx).
Proof.
  revert acc fuel.
  induction pre as [|b pre IH]; intros acc fuel Hpre Ht Hfuel;
    (destruct fuel as [|f]; [simpl in Hfuel; lia|]).
  - simpl app. rewrite SMC_receive_bytes_S, Ht. simpl.
    rewrite string_append_empty_r. reflexivity.
  - inversion Hpre as [|? ? Hb Hpre']; subst.
    cbn [app]. rewrite SMC_receive_bytes_S.
    destruct (Z.eqb_spec (Z.land b 127) 10); [contradiction|].
    cbn [filter]. simpl in Hfuel.
    destruct (Z.eqb (Z.land b 127) 13 || Z.eqb (Z.land b 127) 0); cbn [negb].
    + apply IH; auto; lia.
    + rewrite IH by (auto; lia). rewrite string_append_assoc. reflexivity.
Qed.

Lemma SMC_receive_bytes_hang (rx : list Z) (tx : list string) (acc : string) (fuel : nat) :
  Forall (fun b => Z.land b 127 <> 10) rx ->
  exists c, SMC.receive_bytes fuel acc (IO.mkchan rx tx) = (IO.Hang, c).
Proof.
  revert acc fuel.
  induction rx as [|b rx IH]; intros acc fuel Hrx;
    (destruct fuel as [|f]; [eexists; reflexivity|]).
  - eexists; reflexivity.
  - inversion Hrx as [|? ? Hb Hrx']; subst. rewrite SMC_receive_bytes_S.
    destruct (Z.eqb_spec (Z.land b 127) 10); [contradiction|].
    destruct (Z.eqb (Z.land b 127) 13 || Z.eqb (Z.land b 127) 0); apply IH; auto.
Qed.

(** [Link.receive] at the byte level: the returned line is made of the
    bytes before the first byte whose low seven bits are LF, with the high
    bit masked and CR and NUL dropped; that LF byte is consumed and the
    rest is left unread.  With no such byte it blocks. *)
Theorem SMC_link_receive_line :
  (forall (pre : list Z) (t : Z) (rest : list Z) (tx : list string),
     Forall (fun b => Z.land b 127 <> 10) pre -> Z.land t 127 = 10 ->
     SMC.link_receive (IO.mkchan (pre ++ t :: rest) tx) =
       (IO.Ret (string_of_list_ascii
                  (map (fun b => ascii_of_nat (Z.to_nat (Z.land b 127)))
                       (filter (fun b => negb (Z.eqb (Z.land b 127) 13 || Z.eqb (Z.land b 127) 0))
                               pre))),
        IO.mkchan rest tx)) /\
  (forall (rx : list Z) (tx : list string),
     Forall (fun b => Z.land b 127 <> 10) rx ->
     exists c, SMC.link_receive (IO.mkchan rx tx) = (IO.Hang, c)).
Proof.
  split.
  - intros pre t rest tx Hpre Ht. unfold SMC.link_receive, IO.with_fuel. cbn [IO.rx].
    rewrite SMC_receive_bytes_frame; auto. rewrite length_app; simpl; lia.
  - intros rx tx Hrx. unfold SMC.link_receive, IO.with_fuel. apply SMC_receive_bytes_hang; auto.
Qed.

(** [Link.receive] returns a line without CR, LF and NUL sent as its bytes
    (with or without the high bit set) followed by CR LF. *)
Theorem SMC_link_receive_roundtrip (s : string) (bs : list Z) (rest : list Z)
    (tx : list string) :
  Forall (fun c => nat_of_ascii c <> 10%nat /\ nat_of_ascii c <> 13%nat /\
                   nat_of_ascii c <> 0%nat) (list_ascii_of_string s) ->
  Forall2 (fun c b => Z.land b 127 = Z.of_nat (nat_of_ascii c)) (list_ascii_of_string s) bs ->
  SMC.link_receive (IO.mkchan (bs ++ 13 :: 10 :: rest) tx) = (IO.Ret s, IO.mkchan rest tx).
Proof.
  intros Hs Hbs.
  replace (bs ++ 13 :: 10 :: rest) with ((bs ++ [13]) ++ 10 :: rest)
    by (rewrite <- app_assoc; reflexivity).
  rewrite (proj1 SMC_link_receive_line).
  - f_equal. f_equal. rewrite <- (string_of_list_ascii_of_string s). f_equal.
    rewrite filter_app. cbn [filter]. change (Z.land 13 127) with 13. cbn.
    rewrite app_nil_r.
    induction Hbs as [|c b cs bs Hcb Hbs IH]; [reflexivity|].
    inversion Hs as [|? ? [H10 [H13 H0]] Hs']; subst.
    cbn [filter map]. rewrite Hcb.
    replace (Z.eqb (Z.of_nat (nat_of_ascii c)) 13 || Z.eqb (Z.of_nat (nat_of_ascii c)) 0)
      with false.
    + cbn [negb map]. rewrite Hcb, Nat2Z.id, ascii_nat_embedding, IH by assumption. reflexivity.
    + symmetry. apply orb_false_intro; apply Z.eqb_neq; lia.
  - apply Forall_app. split; [|repeat constructor; discriminate].
    induction Hbs as [|c b cs bs Hcb Hbs IH]; [constructor|].
    inversion Hs as [|? ? [H10 [H13 H0]] Hs']; subst.
    constructor; [rewrite Hcb; lia | auto].
  - reflexivity.
Qed.

Lemma SMC_get_error_and_state_ok (addr : Z) (code : string) (es : SMC.ErrorAndState)
    (rest tx : list string) :
  SMC.decode_error_and_state (Some code) = Ok es ->
  SMC.get_error_and_state addr
    (IO.mkchan ((Str.of_Z addr ++ "TS" ++ code)%string :: rest) tx) =
    (IO.Ret es, IO.mkchan rest (tx ++ [(Str.of_Z addr ++ ("TS" ++ "?") ++
                             String "013" (String "010" EmptyString))%string])).
Proof.
  intros Hdec.
  unfold SMC.get_error_and_state, SMC.query, IO.with_fuel. cbn [IO.rx].
  unfold IO.bind at 1.
  replace (Str.of_Z addr ++ "TS" ++ code)%string
    with ((Str.of_Z addr ++ "TS") ++ code)%string
    by (rewrite string_append_assoc; reflexivity).
  rewrite (SMC_query_fuel_retries addr "TS"%string [] ((Str.of_Z addr ++ "TS") ++ code)%string
             rest tx).
  - simpl SMC.addr_prefix. rewrite string_substring_app. rewrite Hdec. reflexivity.
  - constructor.
  - apply string_prefix_app.
  - simpl. lia.
Qed.

(** [SMC100.home_search] queries [TS] and then sends [OR] to every
    address in turn; [home_search_if_required] sends the [OR] only to the
    addresses whose state is not referenced. *)
Theorem SMC_home_search_sends (items : list (Z * string * SMC.ErrorAndState))
    (rest tx : list string) :
  Forall (fun '(_, code, es) => SMC.decode_error_and_state (Some code) = Ok es) items ->
  let addresses := map (fun '(a, _, _) => a) items in
  let answers := map (fun '(a, code, _) => (Str.of_Z a ++ "TS" ++ code)%string) items in
  let ts a := (Str.of_Z a ++ ("TS" ++ "?") ++ String "013" (String "010" EmptyString))%string in
  let home a := (Str.of_Z a ++ "OR" ++ String "013" (String "010" EmptyString))%string in
  SMC.home_search addresses (IO.mkchan (answers ++ rest) tx) =
    (IO.Ret tt, IO.mkchan rest (tx ++ flat_map (fun '(a, _, _) => [ts a; home a]) items)) /\
  SMC.home_search_if_required addresses (IO.mkchan (answers ++ rest) tx) =
    (IO.Ret tt, IO.mkchan rest
       (tx ++ flat_map (fun '(a, _, es) =>
                          ts a :: (if SMC.is_referenced es then [] else [home a])) items)).
Proof.
  intros Hitems. cbv zeta. revert tx.
  induction items as [|[[a code] es] items IH]; intros tx.
  - cbn. rewrite app_nil_r. split; reflexivity.
  - inversion Hitems as [|? ? Hdec Hitems']; subst.
    pose proof (fun tx => proj1 (IH Hitems' tx)) as IH1.
    pose proof (fun tx => proj2 (IH Hitems' tx)) as IH2. cbn [map flat_map app].
    split.
    + cbn [SMC.home_search]. unfold IO.bind at 1.
      rewrite (SMC_get_error_and_state_ok a code es _ tx Hdec).
      cbv [IO.bind SMC.send IO.write SMC.addr_prefix IO.rx IO.tx].
      rewrite IH1, <- !app_assoc. reflexivity.
    + cbn [SMC.home_search_if_required]. unfold IO.bind at 1.
      rewrite (SMC_get_error_and_state_ok a code es _ tx Hdec).
      destruct (SMC.is_referenced es); cbn [negb];
        cbv [IO.bind SMC.send IO.write SMC.addr_prefix IO.ret IO.rx IO.tx];
        rewrite IH2, <- !app_assoc; reflexivity.
Qed.

(** [SMC100.is_moving] queries the addresses in order and returns [True]
    at the first one that is moving, homing or jogging, without querying
    the others; it returns [False] after querying all of them when none
    is. *)
Theorem SMC_is_moving_first_busy :
  let busy es := (SMC.is_moving es || SMC.is_homing es || SMC.is_jogging es)%bool in
  let addrs (l : list (Z * string * SMC.ErrorAndState)) := map (fun '(a, _, _) => a) l in
  let answers (l : list (Z * string * SMC.ErrorAndState)) :=
    map (fun '(a, code, _) => (Str.of_Z a ++ "TS" ++ code)%string) l in
  let ts a := (Str.of_Z a ++ ("TS" ++ "?") ++ String "013" (String "010" EmptyString))%string in
  (forall pre a code es post rest tx,
     Forall (fun '(_, code, es) => SMC.decode_error_and_state (Some code) = Ok es /\
                                   busy es = false) pre ->
     SMC.decode_error_and_state (Some code) = Ok es -> busy es = true ->
     SMC.stage_is_moving (addrs (pre ++ (a, code, es) :: post))
       (IO.mkchan (answers (pre ++ [(a, code, es)]) ++ rest) tx) =
       (IO.Ret true, IO.mkchan rest (tx ++ map ts (addrs (pre ++ [(a, code, es)]))))) /\
  (forall items rest tx,
     Forall (fun '(_, code, es) => SMC.decode_error_and_state (Some code) = Ok es /\
                                   busy es = false) items ->
     SMC.stage_is_moving (addrs items) (IO.mkchan (answers items ++ rest) tx) =
       (IO.Ret false, IO.mkchan rest (tx ++ map ts (addrs items)))).
Proof.
  cbv zeta. split.
  - intros pre a code es post rest tx Hpre Hdec Hbusy. revert tx.
    induction pre as [|[[a' code'] es'] pre IH]; intros tx.
    + cbn [app map SMC.stage_is_moving]. unfold IO.bind at 1.
      rewrite (SMC_get_error_and_state_ok a code es _ tx Hdec), Hbusy. reflexivity.
    + inversion Hpre as [|? ? Hx Hpre']; subst; destruct Hx as [Hdec' Hb'].
      cbn [app map SMC.stage_is_moving]. unfold IO.bind at 1.
      rewrite (SMC_get_error_and_state_ok a' code' es' _ tx Hdec'), Hb'.
      rewrite IH by assumption. rewrite <- app_assoc. reflexivity.
  - intros items rest tx Hitems. revert tx.
    induction items as [|[[a' code'] es'] items IH]; intros tx.
    + cbn. rewrite app_nil_r. reflexivity.
    + inversion Hitems as [|? ? Hx Hitems']; subst; destruct Hx as [Hdec' Hb'].
      cbn [app map SMC.stage_is_moving]. unfold IO.bind at 1.
      rewrite (SMC_get_error_and_state_ok a' code' es' _ tx Hdec'), Hb'.
      rewrite IH by assumption. rewrite <- app_assoc. reflexivity.
Qed.

(** The [SMC100.is_disabled] getter queries the addresses in order and
    returns [True] at the first disabled one, without querying the others;
    it returns [False] after querying all of them when none is. *)
Theorem SMC_is_disabled_first_disabled :
  let addrs (l : list (Z * string * SMC.ErrorAndState)) := map (fun '(a, _, _) => a) l in
  let answers (l : list (Z * string * SMC.ErrorAndState)) :=
    map (fun '(a, code, _) => (Str.of_Z a ++ "TS" ++ code)%string) l in
  let ts a := (Str.of_Z a ++ ("TS" ++ "?") ++ String "013" (String "010" EmptyString))%string in
  (forall pre a code es post rest tx,
     Forall (fun '(_, code, es) => SMC.decode_error_and_state (Some code) = Ok es /\
                                   SMC.is_disabled es = false) pre ->
     SMC.decode_error_and_state (Some code) = Ok es -> SMC.is_disabled es = true ->
     SMC.stage_is_disabled (addrs (pre ++ (a, code, es) :: post))
       (IO.mkchan (answers (pre ++ [(a, code, es)]) ++ rest) tx) =
       (IO.Ret true, IO.mkchan rest (tx ++ map ts (addrs (pre ++ [(a, code, es)]))))) /\
  (forall items rest tx,
     Forall (fun '(_, code, es) => SMC.decode_error_and_state (Some code) = Ok es /\
                                   SMC.is_disabled es = false) items ->
     SMC.stage_is_disabled (addrs items) (IO.mkchan (answers items ++ rest) tx) =
       (IO.Ret false, IO.mkchan rest (tx ++ map ts (addrs items)))).
Proof.
  cbv zeta. split.
  - intros pre a code es post rest tx Hpre Hdec Hbusy. revert tx.
    induction pre as [|[[a' code'] es'] pre IH]; intros tx.
    + cbn [app map SMC.stage_is_disabled]. unfold IO.bind at 1.
      rewrite (SMC_get_error_and_state_ok a code es _ tx Hdec), Hbusy. reflexivity.
    + inversion Hpre as [|? ? Hx Hpre']; subst; destruct Hx as [Hdec' Hb'].
      cbn [app map SMC.stage_is_disabled]. unfold IO.bind at 1.
      rewrite (SMC_get_error_and_state_ok a' code' es' _ tx Hdec'), Hb'.
      rewrite IH by assumption. rewrite <- app_assoc. reflexivity.
  - intros items rest tx Hitems. revert tx.
    induction items as [|[[a' code'] es'] items IH]; intros tx.
    + cbn. rewrite app_nil_r. reflexivity.
    + inversion Hitems as [|? ? Hx Hitems']; subst; destruct Hx as [Hdec' Hb'].
      cbn [app map SMC.stage_is_disabled]. unfold IO.bind at 1.
      rewrite (SMC_get_error_and_state_ok a' code' es' _ tx Hdec'), Hb'.
      rewrite IH by assumption. rewrite <- app_assoc. reflexivity.
Qed.

Lemma SMC_state_value_inj (s s' : SMC.State) :
  Z.eqb (SMC.state_value s) (SMC.state_value s') = true -> s = s'.
Proof. destruct s, s'; cbv; congruence. Qed.

Lemma SMC_all_states_in (s : SMC.State) : In s SMC.all_states.
Proof. destruct s; cbv; tauto. Qed.

Lemma SMC_decode_all_codes :
  forallb (fun n => forallb (fun s =>
    match SMC.decode_error_and_state
            (Some (M3FS.hexlify [Z.of_nat n / 256; Z.of_nat n mod 256] ++
                   M3FS.hexlify [SMC.state_value s])%string) with
    | Ok es => Z.eqb (SMC.error es) (Z.of_nat n) &&
               Z.eqb (SMC.state_value (SMC.state es)) (SMC.state_value s)
    | Err _ => false
    end) SMC.all_states) (seq 0 1024) = true.
Proof. vm_compute. reflexivity. Qed.

(** The decoding of [SMC100.get_error_and_state]: every error flag value
    of [Error] (bits 0 to 9) and every [State], written as six hexadecimal
    digits (four for the flags, two for the state), decode back to
    themselves. *)
Theorem SMC_decode_error_and_state_roundtrip (e : Z) (s : SMC.State) :
  0 <= e < 1024 ->
  SMC.decode_error_and_state
    (Some (M3FS.hexlify [e / 256; e mod 256] ++ M3FS.hexlify [SMC.state_value s])%string) =
    Ok (SMC.mkErrorAndState e s).
Proof.
  intros He.
  pose proof SMC_decode_all_codes as H.
  rewrite forallb_forall in H. specialize (H (Z.to_nat e)).
  rewrite in_seq, Z2Nat.id in H by lia.
  specialize (H ltac:(lia)). rewrite forallb_forall in H.
  specialize (H s (SMC_all_states_in s)).
  destruct (SMC.decode_error_and_state _) as [[e' s']|]; [|discriminate].
  apply andb_true_iff in H as [H1 H2]. cbn in H1, H2.
  apply Z.eqb_eq in H1. apply SMC_state_value_inj in H2. subst. reflexivity.
Qed.

Lemma string_substring_list (n m : nat) (s : string) :
  list_ascii_of_string (substring n m s) = firstn m (skipn n (list_ascii_of_string s)).
Proof.
  revert n m. induction s as [|c s IH]; intros n m.
  - destruct n, m; reflexivity.
  - destruct n as [|n], m as [|m]; simpl; try reflexivity.
    + rewrite IH. reflexivity.
    + apply IH.
    + apply IH.
Qed.

Lemma list_ascii_length (s : string) : length (list_ascii_of_string s) = String.length s.
Proof. induction s; simpl; auto. Qed.

Lemma Str_endswith_last (s : string) (t : string) (d : ascii) :
  Str.endswith s (t ++ String d EmptyString)%string = true ->
  exists l, list_ascii_of_string s = l ++ [d].
Proof.
  unfold Str.endswith. intros H. apply andb_true_iff in H as [Hle Heq].
  apply Nat.leb_le in Hle. apply String.eqb_eq in Heq.
  apply (f_equal list_ascii_of_string) in Heq.
  rewrite string_substring_list in Heq.
  set (k := String.length (t ++ String d EmptyString)) in *.
  set (L := list_ascii_of_string s) in *.
  assert (HL : length L = String.length s) by apply list_ascii_length.
  assert (Hk : length (skipn (String.length s - k) L) = k) by (rewrite length_skipn; lia).
  rewrite firstn_all2 in Heq by lia.
  exists (firstn (String.length s - k) L ++ list_ascii_of_string t).
  rewrite <- (firstn_skipn (String.length s - k) L) at 1. rewrite Heq, <- app_assoc.
  f_equal. clear. induction t as [|a t IH]; simpl; [reflexivity| now rewrite IH].
Qed.

Lemma Str_lstrip_head (l : list ascii) :
  Str.lstrip l = [] \/ exists c l', Str.lstrip l = c :: l' /\ Str.is_space c = false.
Proof.
  induction l as [|c l IH]; simpl; [left; reflexivity|].
  destruct (Str.is_space c) eqn:E; [exact IH|right; eauto].
Qed.

Lemma PI_strip_not_space_end (s : string) (t : string) (d : ascii) :
  Str.is_space d = true -> Str.endswith (PI.strip s) (t ++ String d EmptyString)%string = false.
Proof.
  intros Hd. destruct (Str.endswith _ _) eqn:E; [|reflexivity].
  apply Str_endswith_last in E as [l Hl].
  unfold PI.strip, Str.strip in Hl. rewrite list_ascii_of_string_of_list_ascii in Hl.
  destruct (Str_lstrip_head (rev (Str.lstrip (list_ascii_of_string s)))) as [H|(c & l' & H & Hc)];
    rewrite H in Hl; simpl in Hl.
  - destruct l; discriminate Hl.
  - apply app_inj_tail in Hl as [_ ->]. congruence.
Qed.

Lemma PI_query_loop_line (f : nat) (a : Z) (responses : list string) (line r0 r1 p : string)
    (rest tx : list string) :
  PI.split2 (PI.strip line) = [r0; r1; p] ->
  py_int10 r0 = Ok 0 -> py_int10 r1 = Ok a ->
  PI.query_loop (S f) (Some a) responses (IO.mkchan (line :: rest) tx) =
    (IO.Ret (responses ++ [PI.strip p]), IO.mkchan rest tx).
Proof.
  intros Hs H0 H1.
  cbn [PI.query_loop]. cbv [PI.readline IO.bind IO.read IO.ret IO.rx IO.tx].
  rewrite Hs. cbn [List.length Nat.eqb PI.check nth]. cbv [PI.check IO.ret IO.lift].
  rewrite H0. cbn [Z.eqb]. rewrite H1, Z.eqb_refl.
  rewrite (PI_strip_not_space_end p " " "010"%char) by reflexivity.
  reflexivity.
Qed.

Lemma py_int10_result (s : string) :
  (exists z, py_int10 s = Ok z) \/ py_int10 s = Err (ValueError MsgInvalidLiteral).
Proof.
  unfold py_int10. destruct (Str.sign _) as [neg l1].
  destruct (Str.take_digits Str.digit l1) as [[|d ds] [|x r]]; eauto.
Qed.

(** [PI.query] with an address reads exactly one line and returns a
    one-element list (the stripped payload never ends in a blank and LF,
    so the loop never continues); without an address it always raises. *)
Theorem PI_query_single_response (command : string) (args : option (list string)) :
  (forall (a : Z) (line r0 r1 p : string) (rest tx : list string),
     PI.split2 (PI.strip line) = [r0; r1; p] ->
     py_int10 r0 = Ok 0 -> py_int10 r1 = Ok a ->
     PI.query command (Some a) args (IO.mkchan (line :: rest) tx) =
       (IO.Ret [PI.strip p], IO.mkchan rest (tx ++ [PI.query_cmd command (Some a) args]))) /\
  (forall c : IO.chan string, exists e c',
     PI.query command None args c = (IO.Raise e, c') /\
     (e = AssertionError \/ e = ValueError MsgInvalidLiteral)).
Proof.
  split.
  - intros a line r0 r1 p rest tx Hs H0 H1.
    unfold PI.query, IO.with_fuel. cbv [IO.bind IO.write IO.rx IO.tx]. cbn [List.length].
    rewrite (PI_query_loop_line _ a [] line r0 r1 p rest); auto.
  - intros [rx tx]. unfold PI.query, IO.with_fuel. cbv [IO.bind IO.write IO.rx IO.tx].
    destruct rx as [|line rest]; cbn [List.length PI.query_loop];
      cbv [PI.readline IO.bind IO.read IO.ret IO.rx IO.tx PI.check IO.lift IO.raise].
    + do 2 eexists. split; [reflexivity | left; reflexivity].
    + destruct (PI.split2 (PI.strip line)) as [|x0 [|x1 [|x2 [|x3 l]]]];
        cbn [List.length Nat.eqb nth];
        try (do 2 eexists; split; [reflexivity | left; reflexivity]).
      destruct (py_int10_result x0) as [[z Hz]|Hz]; rewrite Hz;
        [|do 2 eexists; split; [reflexivity | right; reflexivity]].
      destruct (Z.eqb z 0); [|do 2 eexists; split; [reflexivity | left; reflexivity]].
      destruct (py_int10_result x1) as [[z1 Hz1]|Hz1]; rewrite Hz1;
        [|do 2 eexists; split; [reflexivity | right; reflexivity]].
      do 2 eexists; split; [reflexivity | left; reflexivity].
Qed.

(** [Tic.write_32]: the two 16-bit fields recombine to the data, the low
    one is always in [0, 65536), and the high one is too exactly when the
    data is in [0, 2^32) (a negative data gives a negative high field). *)
Theorem Tic_write_32_fields (command data : Z) :
  let '(request_type, cmd, value, index, length) := Tic.write_32 command data in
  request_type = 64 /\ cmd = command /\ length = 0 /\
  0 <= value < 65536 /\ value + 65536 * index = data /\
  (0 <= index < 65536 <-> 0 <= data < 2 ^ 32).
Proof.
  unfold Tic.write_32.
  change 0xFFFF with (Z.ones 16). rewrite Z.land_ones, Z.shiftr_div_pow2 by lia.
  change (2 ^ 16) with 65536.
  pose proof (Z.div_mod data 65536) as Hd. pose proof (Z.mod_pos_bound data 65536) as Hm.
  repeat split; try lia.
  all: try (apply Z.div_pos; lia).
  all: try (apply Z.div_lt_upper_bound; lia).
  all: try (destruct H; assert (data / 65536 < 65536) by lia; nia).
Qed.

(** ** Instances of the properties above at concrete inputs *)

Lemma Stage_check_range_ok_iff_witness :
  Stage.check_range (Stage.mkstage 2 (Some [PyInt 0; PyNone]) (Some [PyInt 10; PyInt 10]))
                    [PyInt 5; PyInt 20] = Ok tt <->
  ~ exists i, Stage.violates (Stage.mkstage 2 (Some [PyInt 0; PyNone]) (Some [PyInt 10; PyInt 10]))
                             [PyInt 5; PyInt 20] i.
Proof.
  apply Stage_check_range_ok_iff.
  - reflexivity.
  - split; intros m H; injection H as <-; reflexivity.
  - repeat constructor.
Defined.

Lemma Stage_position_set_valid_witness :
  Stage.position_set string (fun _ => IO.write "M"%string)
    (Stage.mkstage 1 (Some [PyInt 0]) None) [PyInt 3] = IO.write "M"%string.
Proof.
  apply (Stage_position_set_valid (fun _ => IO.write "M"%string)).
  - reflexivity.
  - split; intros m H; [injection H as <-; reflexivity | discriminate H].
  - repeat constructor.
  - intros (i & x & Hx & [(ms & m & Hms & Hm & Hn & Hlt) | (ms & m & Hms & _)]);
      [|discriminate Hms].
    injection Hms as <-.
    destruct i as [|[|i]]; simpl in Hx, Hm; try discriminate Hx.
    injection Hx as <-. injection Hm as <-. discriminate Hlt.
Defined.

Lemma Stage_set_bounds_witness :
  Stage.set_minimums (Stage.mkstage 2 None None) (Some [PyInt 0]) =
    Err (ValueError (MsgIncorrectDimension 1 2)) /\
  (Stage.set_maximums (Stage.mkstage 2 None None) (Some [PyInt 0; PyInt 0]) =
     Ok (Stage.mkstage 2 None (Some [PyInt 0; PyInt 0])) ->
   Stage.bounds_fit (Stage.mkstage 2 None (Some [PyInt 0; PyInt 0]))).
Proof.
  assert (Hfit : Stage.bounds_fit (Stage.mkstage 2 None None))
    by (split; intros m H; discriminate H).
  split.
  - exact (proj1 (proj1 (Stage_set_bounds (Stage.mkstage 2 None None)
                          (Stage.mkstage 2 (Some [PyInt 0]) None) (Some [PyInt 0]) Hfit)
                    [PyInt 0] eq_refl ltac:(discriminate))).
  - intros H.
    exact (proj1 (proj2 (proj2 (Stage_set_bounds (Stage.mkstage 2 None None)
                   (Stage.mkstage 2 None (Some [PyInt 0; PyInt 0])) (Some [PyInt 0; PyInt 0]) Hfit))
                   H)).
Defined.

Lemma Stage_wait_move_finished_polls_witness :
  Stage.wait_move_finished bool
    (fun c => match IO.rx c with
              | t :: r => (IO.Ret t, IO.mkchan r (IO.tx c))
              | [] => (IO.Ret false, c)
              end)
    (Some (IO.write "wait"%string)) (S 2 + 0)
    (IO.mkchan ([true; true] ++ [false]) []) =
  (IO.Ret tt, IO.mkchan [] ([] ++ concat (repeat ["wait"%string] 2))).
Proof.
  refine (Stage_wait_move_finished_polls (I := bool) (fun b => b) _
            (Some (IO.write "wait"%string)) "wait"%string _ _ [true; true] false [] [] 0 _ _).
  - intros t rx tx. reflexivity.
  - intros r Hr rx tx. injection Hr as <-. reflexivity.
  - repeat constructor.
  - reflexivity.
Defined.

Lemma Stage_wait_move_finished_busy_witness :
  fst (Stage.wait_move_finished unit (@IO.ret unit bool true) None 5 (IO.mkchan [] [])) = IO.Hang.
Proof.
  apply (Stage_wait_move_finished_busy (@IO.ret unit bool true)).
  intros c. reflexivity.
Defined.

Lemma Stage_find_device_no_criteria_witness :
  Stage.find_device [Stage.mkport "/dev/ttyUSB0" (Some 24577) (Some 1027) None;
                     Stage.mkport "/dev/ttyACM0" None (Some 6770) (Some "A1"%string)]
                    None None None = Stage.NoDeviceFound.
Proof.
  apply Stage_find_device_no_criteria.
  intros p [<-|[<-|[]]]; [left|right]; discriminate.
Defined.

Lemma Vector_getitem_negative_witness :
  Vector.getitem [PyInt 1; PyInt 2; PyInt 3] (- Z.of_nat 1) = nth_error [PyInt 1; PyInt 2; PyInt 3] 2.
Proof.
  apply (Vector_getitem_negative [PyInt 1; PyInt 2; PyInt 3] 1). simpl. lia.
Defined.

Lemma Vector_xy_set_roundtrip_witness :
  exists s', Vector.xy_set [PyInt 1; PyInt 2; PyInt 3] [PyInt 7; PyInt 8] = (s', false) /\
    Vector.xy s' = Vector.xy [PyInt 7; PyInt 8] /\ length s' = length [PyInt 1; PyInt 2; PyInt 3] /\
    skipn 2 s' = skipn 2 [PyInt 1; PyInt 2; PyInt 3].
Proof. apply Vector_xy_set_roundtrip; simpl; lia. Defined.

Lemma Vector_xy_set_partial_witness :
  Vector.xy_set [PyInt 1] [PyInt 7; PyInt 8] = (firstn 1 [PyInt 7; PyInt 8], true).
Proof. apply Vector_xy_set_partial. simpl. lia. Defined.

Lemma Vector_eqb_ints_witness :
  Vector.eqb [PyInt 1; PyInt 2] [PyInt 1; PyInt 2] = true <-> [PyInt 1; PyInt 2] = [PyInt 1; PyInt 2].
Proof. apply Vector_eqb_ints; repeat constructor; eexists; reflexivity. Defined.

Lemma CNC_unlock_reply_witness :
  CNC.unlock (IO.mkchan ["[MSG:Caution: Unlocked]"%string; "ok"%string] []) =
    (IO.Ret (existsb (fun l => String.eqb "[MSG:Caution: Unlocked]" (CNC.strip_line l))
                     ["[MSG:Caution: Unlocked]"%string]),
     IO.mkchan [] ([] ++ [("$X" ++ String "010" EmptyString)%string])).
Proof.
  apply (CNC_unlock_reply ["[MSG:Caution: Unlocked]"%string] "ok"%string [] []).
  - constructor; [|constructor]. intros H. vm_compute in H. discriminate H.
  - reflexivity.
Defined.

Lemma CNC_get_current_status_report_witness :
  CNC.get_current_status
    (IO.mkchan ((if true then [EmptyString] else []) ++ repeat "ok"%string 1 ++
                "<Idle|MPos:1.000,3.000,4.000|FS:0,0>"%string :: []) []) =
  (IO.Ret (Some (IDLE, [("MPos"%string, CNC.DList ["1.000"; "3.000"; "4.000"]%string);
                        ("FS"%string, CNC.DList ["0"; "0"]%string)])),
   IO.mkchan [] ([] ++ repeat "?"%string (if true then 2 else 1))).
Proof.
  apply CNC_get_current_status_report; reflexivity.
Defined.

Lemma SMC_link_receive_roundtrip_witness :
  SMC.link_receive (IO.mkchan ([49; 212; 83] ++ 13 :: 10 :: []) []) =
    (IO.Ret "1TS"%string, IO.mkchan [] []).
Proof.
  apply SMC_link_receive_roundtrip.
  - repeat constructor; cbv; lia.
  - repeat constructor.
Defined.

Lemma SMC_decode_error_and_state_roundtrip_witness :
  SMC.decode_error_and_state
    (Some (M3FS.hexlify [40 / 256; 40 mod 256] ++ M3FS.hexlify [SMC.state_value SMC.MOVING])%string) =
    Ok (SMC.mkErrorAndState 40 SMC.MOVING).
Proof. apply SMC_decode_error_and_state_roundtrip. lia. Defined.

Lemma SMC_home_search_sends_witness :
  let items := [(1, "00000A"%string, SMC.mkErrorAndState 0 SMC.NOT_REFERENCED_FROM_RESET);
                (2, "000032"%string, SMC.mkErrorAndState 0 SMC.READY_FROM_HOMING)] in
  let addresses := map (fun '(a, _, _) => a) items in
  let answers := map (fun '(a, code, _) => (Str.of_Z a ++ "TS" ++ code)%string) items in
  let ts a := (Str.of_Z a ++ ("TS" ++ "?") ++ String "013" (String "010" EmptyString))%string in
  let home a := (Str.of_Z a ++ "OR" ++ String "013" (String "010" EmptyString))%string in
  SMC.home_search addresses (IO.mkchan (answers ++ []) []) =
    (IO.Ret tt, IO.mkchan [] ([] ++ flat_map (fun '(a, _, _) => [ts a; home a]) items)) /\
  SMC.home_search_if_required addresses (IO.mkchan (answers ++ []) []) =
    (IO.Ret tt, IO.mkchan []
       ([] ++ flat_map (fun '(a, _, es) =>
                          ts a :: (if SMC.is_referenced es then [] else [home a])) items)).
Proof.
  apply SMC_home_search_sends.
  constructor; [reflexivity | constructor; [reflexivity | constructor]].
Defined.
